(** * InfluxDB metrics sink (lib/metrics/influxdb.go)

    A shallow embedding of the sink: the name/tag codec, the registry
    accessors, the flush ([publishRegistry]), the client factory
    ([makeClient]), the background [loop] and [Close]. *)

From Stdlib Require Import ZArith String Ascii List Lia.
From stdpp Require Import base option list strings gmap fin_maps.



(** ** Strings: the two stdlib helpers the codec leans on *)

Module Str.

(** [strings.Split(s, sep)] for a one-byte separator: the pieces between
    the separators, an empty string giving one empty piece. *)
Fixpoint split (sep : ascii) (s : string) : list string :=
  match s with
  | EmptyString => [EmptyString]
  | String a rest =>
      if Ascii.eqb a sep then EmptyString :: split sep rest
      else match split sep rest with
           | piece :: pieces => String a piece :: pieces
           | [] => [String a EmptyString]
           end
  end.

(** The text before and after the first [sep], when there is one. *)
Fixpoint cut (sep : ascii) (s : string) : option (string * string) :=
  match s with
  | EmptyString => None
  | String a rest =>
      if Ascii.eqb a sep then Some (EmptyString, rest)
      else match cut sep rest with
           | Some (before, after) => Some (String a before, after)
           | None => None
           end
  end.

(** [strings.ContainsRune] negated. *)
Fixpoint free_of (sep : ascii) (s : string) : bool :=
  match s with
  | EmptyString => true
  | String a rest => negb (Ascii.eqb a sep) && free_of sep rest
  end.

End Str.

(** ** Name/tag codec *)

Module Codec.

Definition tagSep : ascii := ","%char.
Definition kvSep : ascii := "="%char.

(** One [key=value] segment of an encoded key. *)
Definition segment (k v : string) : string := k +:+ String kvSep v.

Fixpoint join (segs : list string) : string :=
  match segs with
  | [] => EmptyString
  | seg :: rest => String tagSep (seg +:+ join rest)
  end.

(** Modelled from the spec: [encodeInfluxDBName] is declared in a file of
    the package that is not part of the sources at hand.  The spec gives
    its contract, [encode(name, tagKeys, tagValues) -> key], a reversible
    folding of the tags into one flat registry key in which the codec's
    delimiters separate the name from the tags and pair each tag key with
    its value, in the order supplied (the order is not normalised).  The
    model writes the name, then [,key=value] for each pair. *)
Definition encodeInfluxDBName (name : string) (tagKeys tagValues : list string)
  : string :=
  name +:+ join (zip_with segment tagKeys tagValues).

Definition readTag (tags : gmap string string) (seg : string)
  : gmap string string :=
  match Str.cut kvSep seg with
  | Some (k, v) => <[k := v]> tags
  | None => tags
  end.

(** Modelled from the spec: [decodeInfluxDBName] is missing with its twin.
    The spec gives [decode(key) -> (name, tags)], unfolding at flush time
    what [encode] folded, a duplicate tag key keeping the last value
    written. *)
Definition decodeInfluxDBName (key : string) : string * gmap string string :=
  match Str.split tagSep key with
  | [] => (key, ∅)
  | name :: segs => (name, foldl readTag ∅ segs)
  end.

(** Content the codec can carry: neither delimiter occurs in it. *)
Definition delimiterFree (s : string) : bool :=
  Str.free_of tagSep s && Str.free_of kvSep s.

(** The pairing of keys with values, written in order into a map: a later
    pair replaces an earlier one with the same key. *)
Definition pairing (tagKeys tagValues : list string) : gmap string string :=
  foldl (fun tags kv => <[kv.1 := kv.2]> tags) ∅ (zip tagKeys tagValues).

End Codec.

(** ** Data model *)

(** A Go [error] by its message; [nil] is [None] where an error is optional. *)
Definition error := string.

Inductive result (A : Type) : Type :=
| Ok (a : A)
| Err (e : error).
Arguments Ok {A} a.
Arguments Err {A} e.

(** [fmt.Errorf(prefix + "%s", err)] around a failing step. *)
Definition wrapErr {A : Type} (prefix : string) (r : result A) : result A :=
  match r with
  | Ok a => Ok a
  | Err e => Err (prefix +:+ e)
  end.

Notation "'attempt' x := e 'in' k" :=
  (match e with Ok x => k | Err err => Err err end)
  (at level 10, x name, e at level 100, k at level 200).

(** What a call leaves behind besides its state: a value, or a Go panic. *)
Inductive outcome (A : Type) : Type :=
| Returns (a : A)
| Panics (why : string).
Arguments Returns {A} a.
Arguments Panics {A} why.

(** A [float64] by its IEEE-754 bit pattern; the sink never computes on one. *)
Inductive float64 : Type := Float64 (bits : Z).

(** The [interface{}] values [getMetricValues] stores: [int64] or [float64]. *)
Inductive FieldValue : Type :=
| VInt (n : Z)
| VFloat (x : float64).

(** [metrics.Timer.Snapshot()] with the readings [getMetricValues] takes;
    [tP50] .. [tP999] are [Percentiles({0.5, 0.75, 0.95, 0.99, 0.999})]. *)
Record TimerSnapshot : Type := {
  tCount : Z; tMin : Z; tMax : Z; tMean : float64; tStdDev : float64;
  tP50 : float64; tP75 : float64; tP95 : float64; tP99 : float64; tP999 : float64;
  tRate1 : float64; tRate5 : float64; tRate15 : float64; tRateMean : float64
}.

Record HistogramSnapshot : Type := {
  hCount : Z; hMin : Z; hMax : Z; hMean : float64; hStdDev : float64;
  hP50 : float64; hP75 : float64; hP95 : float64; hP99 : float64; hP999 : float64
}.

(** The dynamic types a [metrics.Registry] can hold.  The three wrappers are
    the sink's own structs, each embedding the go-metrics interface of its
    kind; the rest are the go-metrics kinds themselves. *)
Inductive Metric : Type :=
| influxDBCounter (count : Z)
| influxDBTimer (t : TimerSnapshot)
| influxDBGauge (value : Z)
| Counter (count : Z)
| Gauge (value : Z)
| GaugeFloat64 (value : float64)
| Timer (t : TimerSnapshot)
| Histogram (h : HistogramSnapshot)
| Meter
| Healthcheck.

Definition zero64 : float64 := Float64 0.

(** [metrics.NewCounter()], [metrics.NewTimer()], [metrics.NewGauge()]. *)
Definition NewCounter : Z := 0.
Definition NewGauge : Z := 0.
Definition NewTimer : TimerSnapshot :=
  {| tCount := 0; tMin := 0; tMax := 0; tMean := zero64; tStdDev := zero64;
     tP50 := zero64; tP75 := zero64; tP95 := zero64; tP99 := zero64;
     tP999 := zero64; tRate1 := zero64; tRate5 := zero64; tRate15 := zero64;
     tRateMean := zero64 |}.

(** The path mapping capability: [mapPathWithTags] gives the backend name and
    the tag keys and values of a dot-separated path, [mapPathNoTags] the
    name alone.  Its type and constructor live outside this file. *)
Record pathMapping_t : Type := {
  mapPathWithTags : string -> string * list string * list string;
  mapPathNoTags : string -> string
}.

(** [btls.Config]: the sink reads [Enabled] and hands the rest to [Get]. *)
Record btls_Config : Type := { Enabled : bool; tlsSettings : string }.

(** [*tls.Config]: [&tls.Config{}] is [TLSZero]. *)
Inductive tls_Config : Type :=
| TLSZero
| TLSOf (settings : string).

Record InfluxDBInclude : Type := { Runtime : string; DebugGC : string }.

Record InfluxDBConfig : Type := {
  URL : string;
  DB : string;
  TLS : btls_Config;
  Interval : string;
  Password : string;
  PingInterval : string;
  Precision : string;
  Timeout : string;
  Username : string;
  RetentionPolicy : string;
  WriteConsistency : string;
  Include : InfluxDBInclude;
  PathMapping : string;
  Tags : gmap string string
}.

(** [*url.URL]: the parts [makeClient] reads. *)
Record url_URL : Type := { Scheme : string; Host : string; URLString : string }.

(** [client.HTTPConfig]; a missing [TLSConfig] is the nil pointer. *)
Record HTTPConfig : Type := {
  hAddr : string;
  hTLSConfig : option tls_Config;
  hUsername : string;
  hPassword : string
}.

Record UDPConfig : Type := { uAddr : string }.

(** A built [client.Client], by the constructor and the settings it came
    from. *)
Inductive Client : Type :=
| HTTPClient (conf : HTTPConfig)
| UDPClient (conf : UDPConfig).

Record BatchPointsConfig : Type := {
  bPrecision : string;
  bDatabase : string;
  bRetentionPolicy : string;
  bWriteConsistency : string
}.

(** [client.Point]: measurement, tags, fields, timestamp. *)
Record Point : Type := {
  pName : string;
  pTags : gmap string string;
  pFields : gmap string FieldValue;
  pTime : Z
}.

(** Everything outside the sink at one moment: the Go standard library, the
    path-mapping constructor, the go-metrics runtime collectors and the
    InfluxDB client library with the network behind it.  An optional error
    is what a call that only reports failure returns. *)
Record World : Type := {
  url_Parse : string -> result url_URL;
  time_ParseDuration : string -> result Z;
  time_Now : Z;
  newPathMapping : string -> result pathMapping_t;
  RegisterRuntimeMemStats : gmap string Metric -> gmap string Metric;
  RegisterDebugGCStats : gmap string Metric -> gmap string Metric;
  TLS_Get : btls_Config -> result tls_Config;
  NewHTTPClient : HTTPConfig -> option error;
  NewUDPClient : UDPConfig -> option error;
  NewBatchPoints : BatchPointsConfig -> option error;
  NewPoint : string -> gmap string string -> gmap string FieldValue -> Z
             -> option error;
  Ping : Client -> Z -> option error;
  Write : Client -> list Point -> option error
}.

Inductive Level : Type := LDebug | LWarn | LError.

(** The calls the sink makes on its collaborators, in order. *)
Inductive Effect : Type :=
| Log (lvl : Level) (msg : string)
| Pinged (c : Client)
| Wrote (c : Client) (batch : list Point)
| ClientClosed (c : Client).

(** The sink.  [ctxDone] tells whether [ctx.Done()] is closed, which is what
    [cancel] does to it.  The logger is left out: every call on it is kept
    as a [Log] effect whichever logger is installed. *)
Record InfluxDB : Type := {
  client : option Client;
  batchConfig : BatchPointsConfig;
  interval : Z;
  pingInterval : Z;
  timeout : Z;
  ctxDone : bool;
  pathMapping : pathMapping_t;
  registry : gmap string Metric;
  runtimeRegistry : gmap string Metric;
  config : InfluxDBConfig
}.

Definition set_client (c : Client) (i : InfluxDB) : InfluxDB :=
  {| client := Some c; batchConfig := batchConfig i; interval := interval i;
     pingInterval := pingInterval i; timeout := timeout i;
     ctxDone := ctxDone i; pathMapping := pathMapping i;
     registry := registry i; runtimeRegistry := runtimeRegistry i;
     config := config i |}.

Definition set_batchConfig (b : BatchPointsConfig) (i : InfluxDB) : InfluxDB :=
  {| client := client i; batchConfig := b; interval := interval i;
     pingInterval := pingInterval i; timeout := timeout i;
     ctxDone := ctxDone i; pathMapping := pathMapping i;
     registry := registry i; runtimeRegistry := runtimeRegistry i;
     config := config i |}.

Definition set_registry (r : gmap string Metric) (i : InfluxDB) : InfluxDB :=
  {| client := client i; batchConfig := batchConfig i; interval := interval i;
     pingInterval := pingInterval i; timeout := timeout i;
     ctxDone := ctxDone i; pathMapping := pathMapping i;
     registry := r; runtimeRegistry := runtimeRegistry i;
     config := config i |}.

(** [i.cancel()], the cancel function of [context.WithCancel]. *)
Definition cancel (i : InfluxDB) : InfluxDB :=
  {| client := client i; batchConfig := batchConfig i; interval := interval i;
     pingInterval := pingInterval i; timeout := timeout i;
     ctxDone := true; pathMapping := pathMapping i;
     registry := registry i; runtimeRegistry := runtimeRegistry i;
     config := config i |}.

(** ** The client factory *)

Definition toCMName (i : InfluxDB) (dotSepName : string)
  : string * list string * list string :=
  mapPathWithTags (pathMapping i) dotSepName.

(** [makeClient]: the sink after the call and the error returned. *)
Definition makeClient (w : World) (i : InfluxDB) : InfluxDB * option error :=
  match url_Parse w (URL (config i)) with
  | Err err => (i, Some ("problem parsing url: " +:+ err))
  | Ok u =>
      let assign (conf : Client) (err : option error) :=
        match err with
        | None => (set_client conf i, None)
        | Some e => (i, Some e)
        end in
      if String.eqb (Scheme u) "https" then
        let tlsConfig :=
          if Enabled (TLS (config i)) then TLS_Get w (TLS (config i))
          else Ok TLSZero in
        match tlsConfig with
        | Err err => (i, Some err)
        | Ok tlsConfig =>
            let conf := {| hAddr := URLString u;
                           hTLSConfig := Some tlsConfig;
                           hUsername := Username (config i);
                           hPassword := Password (config i) |} in
            assign (HTTPClient conf) (NewHTTPClient w conf)
        end
      else if String.eqb (Scheme u) "http" then
        let conf := {| hAddr := URLString u;
                       hTLSConfig := None;
                       hUsername := Username (config i);
                       hPassword := Password (config i) |} in
        assign (HTTPClient conf) (NewHTTPClient w conf)
      else if String.eqb (Scheme u) "udp" then
        let conf := {| uAddr := Host u |} in
        assign (UDPClient conf) (NewUDPClient w conf)
      else
        (i, Some ("protocol needs to be http, https or udp and is " +:+ Scheme u))
  end.

(** ** Construction *)

(** [NewInfluxDB], up to the [go i.loop()] that follows a successful build.
    The option functions only reach the logger and are left out with it. *)
Definition NewInfluxDB (w : World) (conf : InfluxDBConfig) : result InfluxDB :=
  attempt rr1 :=
    (if String.eqb (Runtime (Include conf)) "" then Ok (∅ : gmap string Metric)
     else
       attempt _interval := wrapErr "failed to parse interval: "
                          (time_ParseDuration w (Runtime (Include conf))) in
       Ok (RegisterRuntimeMemStats w ∅)) in
  attempt rr2 :=
    (if String.eqb (DebugGC (Include conf)) "" then Ok rr1
     else
       attempt _interval := wrapErr "failed to parse interval: "
                          (time_ParseDuration w (DebugGC (Include conf))) in
       Ok (RegisterDebugGCStats w rr1)) in
  attempt pm := wrapErr "failed to init path mapping: "
              (newPathMapping w (PathMapping conf)) in
  attempt interval := wrapErr "failed to parse interval: "
                    (time_ParseDuration w (Interval conf)) in
  attempt pingInterval := wrapErr "failed to parse ping interval: "
                        (time_ParseDuration w (PingInterval conf)) in
  attempt timeout := wrapErr "failed to parse timeout interval: "
                   (time_ParseDuration w (Timeout conf)) in
  let i := {| client := None;
              batchConfig := {| bPrecision := ""; bDatabase := "";
                                bRetentionPolicy := "";
                                bWriteConsistency := "" |};
              interval := interval; pingInterval := pingInterval;
              timeout := timeout; ctxDone := false; pathMapping := pm;
              registry := ∅; runtimeRegistry := rr2; config := conf |} in
  match makeClient w i with
  | (_, Some err) => Err err
  | (i, None) =>
      Ok (set_batchConfig
            {| bPrecision := Precision conf; bDatabase := DB conf;
               bRetentionPolicy := RetentionPolicy conf;
               bWriteConsistency := WriteConsistency conf |} i)
  end.

(** ** The flush *)

(** [getMetricValues]: the type switch over the go-metrics interfaces.  A
    wrapper satisfies the interface it embeds; a type no case lists leaves
    the nil map. *)
Definition counterValues (count : Z) : gmap string FieldValue :=
  <["count" := VInt count]> ∅.

Definition gaugeValues (value : FieldValue) : gmap string FieldValue :=
  <["value" := value]> ∅.

Definition timerValues (t : TimerSnapshot) : gmap string FieldValue :=
  <["mean.rate" := VFloat (tRateMean t)]>
  (<["15m.rate" := VFloat (tRate15 t)]>
  (<["5m.rate" := VFloat (tRate5 t)]>
  (<["1m.rate" := VFloat (tRate1 t)]>
  (<["p999" := VFloat (tP999 t)]>
  (<["p99" := VFloat (tP99 t)]>
  (<["p95" := VFloat (tP95 t)]>
  (<["p75" := VFloat (tP75 t)]>
  (<["p50" := VFloat (tP50 t)]>
  (<["stddev" := VFloat (tStdDev t)]>
  (<["mean" := VFloat (tMean t)]>
  (<["max" := VInt (tMax t)]>
  (<["min" := VInt (tMin t)]>
  (<["count" := VInt (tCount t)]> ∅))))))))))))).

Definition histogramValues (h : HistogramSnapshot) : gmap string FieldValue :=
  <["p999" := VFloat (hP999 h)]>
  (<["p99" := VFloat (hP99 h)]>
  (<["p95" := VFloat (hP95 h)]>
  (<["p75" := VFloat (hP75 h)]>
  (<["p50" := VFloat (hP50 h)]>
  (<["stddev" := VFloat (hStdDev h)]>
  (<["mean" := VFloat (hMean h)]>
  (<["max" := VInt (hMax h)]>
  (<["min" := VInt (hMin h)]>
  (<["count" := VInt (hCount h)]> ∅))))))))).

Definition getMetricValues (i : Metric) : gmap string FieldValue :=
  match i with
  | influxDBCounter count | Counter count => counterValues count
  | influxDBGauge value | Gauge value => gaugeValues (VInt value)
  | GaugeFloat64 value => gaugeValues (VFloat value)
  | influxDBTimer t | Timer t => timerValues t
  | Histogram h => histogramValues h
  | Meter | Healthcheck => ∅
  end.

(** [getAllMetrics]: one map for both registries, the runtime metrics under
    their path-mapped names.  [map_fold] visits a registry as [Each] does, in
    an order of the map's own. *)
Definition getAllMetrics (i : InfluxDB) : gmap string (gmap string FieldValue) :=
  let data :=
    map_fold (fun name metric data => <[name := getMetricValues metric]> data)
             ∅ (registry i) in
  map_fold (fun name metric data =>
              let pathMappedName := mapPathNoTags (pathMapping i) name in
              <[pathMappedName := getMetricValues metric]> data)
           data (runtimeRegistry i).

(** The tags of a point: the normal tags applied first, then overridden with
    any global. *)
Definition pointTags (globalTags normalTags : gmap string string)
  : gmap string string :=
  let tags := map_fold (fun k v tags => <[k := v]> tags) ∅ normalTags in
  map_fold (fun k v tags => <[k := v]> tags) tags globalTags.

(** One turn of the [range all] loop of [publishRegistry], on the log calls
    and the batch so far. *)
Definition addEntry (w : World) (i : InfluxDB) (now : Z)
    (acc : list Effect * list Point)
    (kv : string * gmap string FieldValue) : list Effect * list Point :=
  let '(k, v) := kv in
  let '(name, normalTags) := Codec.decodeInfluxDBName k in
  let tags := pointTags (Tags (config i)) normalTags in
  match NewPoint w name tags v now with
  | Some err =>
      (acc.1 ++ [Log LDebug ("problem formatting metrics on " +:+ name
                             +:+ ": " +:+ err)], acc.2)
  | None =>
      (acc.1, acc.2 ++ [{| pName := name; pTags := tags; pFields := v;
                           pTime := now |}])
  end.

(** A method called through the nil [client.Client]. *)
Definition nilClient : string :=
  "invalid memory address or nil pointer dereference".

Definition publishRegistry (w : World) (i : InfluxDB)
  : list Effect * outcome (option error) :=
  match NewBatchPoints w (batchConfig i) with
  | Some err =>
      ([], Returns (Some ("problem creating batch points for influx: " +:+ err)))
  | None =>
      let now := time_Now w in
      let all := getAllMetrics i in
      let '(logs, points) := foldl (addEntry w i now) ([], []) (map_to_list all) in
      match client i with
      | None => (logs, Panics nilClient)
      | Some c => (logs ++ [Wrote c points], Returns (Write w c points))
      end
  end.

(** ** Accessors *)

(** What an accessor hands back: the no-op [DudStat], or the metric object
    the registry keeps under [key]. *)
Inductive Stat : Type :=
| DudStat
| Registered (key : string).

(** [Registry.GetOrRegister(name, factory)]: the metric already there, or
    the factory's, stored. *)
Definition GetOrRegister (r : gmap string Metric) (name : string)
    (factory : Metric) : Metric * gmap string Metric :=
  match r !! name with
  | Some metric => (metric, r)
  | None => (factory, <[name := factory]> r)
  end.

Definition conversionPanic (want : string) : string :=
  "interface conversion: interface {} is not metrics." +:+ want.

(** [len(name) == 0] *)
Definition emptyName (name : string) : bool := Nat.eqb (String.length name) 0.

Definition registerCounter (i : InfluxDB) (encodedName : string)
  : outcome (Stat * InfluxDB) :=
  let '(metric, r) :=
    GetOrRegister (registry i) encodedName (influxDBCounter NewCounter) in
  match metric with
  | influxDBCounter _ => Returns (Registered encodedName, set_registry r i)
  | _ => Panics (conversionPanic "influxDBCounter")
  end.

Definition registerTimer (i : InfluxDB) (encodedName : string)
  : outcome (Stat * InfluxDB) :=
  let '(metric, r) :=
    GetOrRegister (registry i) encodedName (influxDBTimer NewTimer) in
  match metric with
  | influxDBTimer _ => Returns (Registered encodedName, set_registry r i)
  | _ => Panics (conversionPanic "influxDBTimer")
  end.

Definition registerGauge (i : InfluxDB) (encodedName : string)
  : outcome (Stat * InfluxDB) :=
  let '(metric, r) :=
    GetOrRegister (registry i) encodedName (influxDBGauge NewGauge) in
  match metric with
  | influxDBGauge _ => Returns (Registered encodedName, set_registry r i)
  | _ => Panics (conversionPanic "influxDBGauge")
  end.

Definition GetCounter (i : InfluxDB) (path : string) : outcome (Stat * InfluxDB) :=
  let '(name, labels, values) := toCMName i path in
  if emptyName name then Returns (DudStat, i)
  else
    let encodedName := Codec.encodeInfluxDBName name labels values in
    registerCounter i encodedName.

Definition GetTimer (i : InfluxDB) (path : string) : outcome (Stat * InfluxDB) :=
  let '(name, labels, values) := toCMName i path in
  if emptyName name then Returns (DudStat, i)
  else
    let encodedName := Codec.encodeInfluxDBName name labels values in
    registerTimer i encodedName.

Definition GetGauge (i : InfluxDB) (path : string) : outcome (Stat * InfluxDB) :=
  let '(name, labels, values) := toCMName i path in
  if emptyName name then Returns (DudStat, i)
  else
    let encodedName := Codec.encodeInfluxDBName name labels values in
    registerGauge i encodedName.

(** A vector metric: its [With(labelValues...)], run on the sink as it is at
    the time of that call. *)
Definition StatVec : Type := list string -> InfluxDB -> outcome (Stat * InfluxDB).

(** [fakeCounterVec], [fakeTimerVec], [fakeGaugeVec]: helpers of the package
    declared outside this file, each wrapping a function of the label values
    as a vector. *)
Definition fakeVec (f : list string -> Stat) : StatVec :=
  fun l i => Returns (f l, i).

Definition GetCounterVec (i : InfluxDB) (path : string) (n : list string) : StatVec :=
  let '(name, labels, values) := toCMName i path in
  if emptyName name then fakeVec (fun _ => DudStat)
  else
    let labels := labels ++ n in
    fun l i =>
      let v := values ++ l in
      let encodedName := Codec.encodeInfluxDBName path labels v in
      registerCounter i encodedName.

Definition GetTimerVec (i : InfluxDB) (path : string) (n : list string) : StatVec :=
  let '(name, labels, values) := toCMName i path in
  if emptyName name then fakeVec (fun _ => DudStat)
  else
    let labels := labels ++ n in
    fun l i =>
      let v := values ++ l in
      let encodedName := Codec.encodeInfluxDBName name labels v in
      registerTimer i encodedName.

Definition GetGaugeVec (i : InfluxDB) (path : string) (n : list string) : StatVec :=
  let '(name, labels, values) := toCMName i path in
  if emptyName name then fakeVec (fun _ => DudStat)
  else
    let labels := labels ++ n in
    fun l i =>
      let v := values ++ l in
      let encodedName := Codec.encodeInfluxDBName name labels v in
      registerGauge i encodedName.

(** A value recorded through a stat: [Incr], [Decr], [Timing] or [Set]. *)
Inductive Sample : Type :=
| Incr (count : Z)
| Decr (count : Z)
| Timing (delta : Z)
| SetTo (value : Z).

(** Modelled from the spec: the methods of [DudStat] are declared outside
    this file.  The spec calls it a no-op metric that silently discards
    writes: recording returns no error and touches nothing. *)
Definition DudStat_record (s : Sample) (i : InfluxDB)
  : outcome (option error * InfluxDB) :=
  Returns (None, i).

(** ** Shutdown and the background loop *)

Definition Close (w : World) (i : InfluxDB) : list Effect * outcome (option error) :=
  let '(effects, published) := publishRegistry w i in
  match published with
  | Panics why => (effects, Panics why)
  | Returns err =>
      let logged :=
        match err with
        | Some err => [Log LError ("failed to send metrics data: " +:+ err)]
        | None => []
        end in
      match client i with
      | None => (effects ++ logged, Panics nilClient)
      | Some c => (effects ++ logged ++ [ClientClosed c], Returns None)
      end
  end.

(** What wakes the [select] of [loop]: the context's [Done] channel, the
    flush ticker or the ping ticker, each tick with the world as it is when
    its case runs. *)
Inductive Wake : Type :=
| CtxDone
| Tick (w : World)
| PingTick (w : World).

(** One turn of the [for { select { ... } }]: the sink after it and whether
    the loop goes on.  [ctx.Done()] has nothing to receive until the context
    is cancelled, so a [CtxDone] before that wakes nothing. *)
Definition loopTurn (i : InfluxDB) (wake : Wake)
  : list Effect * outcome (InfluxDB * bool) :=
  match wake with
  | CtxDone => ([], Returns (i, negb (ctxDone i)))
  | Tick w =>
      let '(effects, published) := publishRegistry w i in
      match published with
      | Panics why => (effects, Panics why)
      | Returns (Some err) =>
          (effects ++ [Log LError ("failed to send metrics data: " +:+ err)],
           Returns (i, true))
      | Returns None => (effects, Returns (i, true))
      end
  | PingTick w =>
      match client i with
      | None => ([], Panics nilClient)
      | Some c =>
          match Ping w c (timeout i) with
          | None => ([Pinged c], Returns (i, true))
          | Some err =>
              let warned :=
                [Pinged c; Log LWarn ("unable to ping influx endpoint: " +:+ err)] in
              match makeClient w i with
              | (i, Some err) =>
                  (warned ++ [Log LError ("unable to recreate client: " +:+ err)],
                   Returns (i, true))
              | (i, None) => (warned, Returns (i, true))
              end
          end
      end
  end.

(** The sink together with its background goroutine. *)
Inductive Goroutine : Type :=
| Looping
| Returned.

Record Running : Type := { sink : InfluxDB; background : Goroutine }.

(** [go i.loop()]: [time.NewTicker] panics on a non-positive interval. *)
Definition startLoop (i : InfluxDB) : outcome Running :=
  if (0 <? interval i)%Z && (0 <? pingInterval i)%Z
  then Returns {| sink := i; background := Looping |}
  else Panics "non-positive interval for NewTicker".

(** What happens to a running sink: its loop wakes, or its owner closes it. *)
Inductive Action : Type :=
| Wakes (wake : Wake)
| Closes (w : World).

Definition act (s : Running) (a : Action) : list Effect * outcome Running :=
  match a with
  | Wakes wake =>
      match background s with
      | Returned => ([], Returns s)
      | Looping =>
          let '(effects, turned) := loopTurn (sink s) wake in
          match turned with
          | Panics why => (effects, Panics why)
          | Returns (i, goesOn) =>
              (effects,
               Returns {| sink := i;
                          background := if goesOn then Looping else Returned |})
          end
      end
  | Closes w =>
      let '(effects, closed) := Close w (sink s) in
      match closed with
      | Panics why => (effects, Panics why)
      | Returns _ => (effects, Returns s)
      end
  end.

Fixpoint run (s : Running) (actions : list Action) : list Effect * outcome Running :=
  match actions with
  | [] => ([], Returns s)
  | a :: rest =>
      let '(effects, acted) := act s a in
      match acted with
      | Panics why => (effects, Panics why)
      | Returns s =>
          let '(later, ran) := run s rest in
          (effects ++ later, ran)
      end
  end.

(** ** The points of a flush, entry by entry *)

(** The point [publishRegistry] asks the client library for, given one entry
    of [getAllMetrics]. *)
Definition entryPoint (i : InfluxDB) (now : Z)
    (kv : string * gmap string FieldValue) : Point :=
  let '(name, normalTags) := Codec.decodeInfluxDBName kv.1 in
  {| pName := name; pTags := pointTags (Tags (config i)) normalTags;
     pFields := kv.2; pTime := now |}.

(** What [client.NewPoint] answers for it. *)
Definition refusal (w : World) (p : Point) : option error :=
  NewPoint w (pName p) (pTags p) (pFields p) (pTime p).

Definition accepted (w : World) (i : InfluxDB) (now : Z)
    (kv : string * gmap string FieldValue) : bool :=
  match refusal w (entryPoint i now kv) with
  | None => true
  | Some _ => false
  end.

Definition refusalLog (w : World) (i : InfluxDB) (now : Z)
    (kv : string * gmap string FieldValue) : list Effect :=
  match refusal w (entryPoint i now kv) with
  | None => []
  | Some err =>
      [Log LDebug ("problem formatting metrics on "
                   +:+ pName (entryPoint i now kv) +:+ ": " +:+ err)]
  end.

(** The number of batches written among some effects. *)
Definition writes (effects : list Effect) : nat :=
  length (List.filter (fun e => match e with Wrote _ _ => true | _ => false end)
                      effects).

(** ** Sample inputs *)

Module Sample.

(** A path mapping that keeps every path as its name, without tags. *)
Definition keepPaths : pathMapping_t :=
  {| mapPathWithTags := fun path => (path, [], []);
     mapPathNoTags := fun path => path |}.

(** A path mapping that files every path under one measurement, tagged
    with its environment. *)
Definition renamePaths : pathMapping_t :=
  {| mapPathWithTags := fun _ => ("mapped", ["env"], ["prod"]);
     mapPathNoTags := fun _ => "mapped" |}.

(** A path mapping that drops every path. *)
Definition dropPaths : pathMapping_t :=
  {| mapPathWithTags := fun _ => ("", [], []);
     mapPathNoTags := fun _ => "" |}.

(** [scheme://host] read as a URL. *)
Definition parseURL (raw : string) : result url_URL :=
  match Str.cut ":"%char raw with
  | Some (scheme, String "/" (String "/" host)) =>
      Ok {| Scheme := scheme; Host := host; URLString := raw |}
  | _ => Err "missing protocol scheme"
  end.

Definition second : Z := 1000000000.

Definition parseDuration (s : string) : result Z :=
  if String.eqb s "1m" then Ok (60 * second)%Z
  else if String.eqb s "20s" then Ok (20 * second)%Z
  else if String.eqb s "5s" then Ok (5 * second)%Z
  else Err ("time: invalid duration " +:+ s).

(** The precisions the client library takes for a batch. *)
Definition batchPoints (conf : BatchPointsConfig) : option error :=
  if String.eqb (bPrecision conf) "s" || String.eqb (bPrecision conf) "ms"
     || String.eqb (bPrecision conf) "us" || String.eqb (bPrecision conf) "ns"
     || String.eqb (bPrecision conf) ""
  then None
  else Some ("time: unknown unit in duration 1" +:+ bPrecision conf).

(** The client library takes no point without a field. *)
Definition newPoint (name : string) (tags : gmap string string)
    (fields : gmap string FieldValue) (t : Z) : option error :=
  if decide (fields = ∅) then Some "Point without fields is unsupported"
  else None.

(** A world whose endpoint answers. *)
Definition up : World :=
  {| url_Parse := parseURL;
     time_ParseDuration := parseDuration;
     time_Now := 1700000000;
     newPathMapping := fun _ => Ok keepPaths;
     RegisterRuntimeMemStats := fun r => <["runtime.MemStats.Alloc" := Gauge 0]> r;
     RegisterDebugGCStats := fun r => <["debug.GCStats.NumGC" := Gauge 0]> r;
     TLS_Get := fun c => Ok (TLSOf (tlsSettings c));
     NewHTTPClient := fun _ => None;
     NewUDPClient := fun _ => None;
     NewBatchPoints := batchPoints;
     NewPoint := newPoint;
     Ping := fun _ _ => None;
     Write := fun _ _ => None |}.

(** A world whose endpoint is gone: pings and writes fail, and no new
    client can be built. *)
Definition down : World :=
  {| url_Parse := parseURL;
     time_ParseDuration := parseDuration;
     time_Now := 1700000060;
     newPathMapping := fun _ => Ok keepPaths;
     RegisterRuntimeMemStats := fun r => r;
     RegisterDebugGCStats := fun r => r;
     TLS_Get := fun c => Ok (TLSOf (tlsSettings c));
     NewHTTPClient := fun _ => Some "no route to host";
     NewUDPClient := fun _ => Some "no route to host";
     NewBatchPoints := batchPoints;
     NewPoint := newPoint;
     Ping := fun _ _ => Some "connection refused";
     Write := fun _ _ => Some "connection refused" |}.

(** [NewInfluxDBConfig()] with a URL and a database filled in. *)
Definition conf (url : string) : InfluxDBConfig :=
  {| URL := url; DB := "metrics";
     TLS := {| Enabled := false; tlsSettings := "" |};
     Interval := "1m"; Password := ""; PingInterval := "20s";
     Precision := "s"; Timeout := "5s"; Username := "";
     RetentionPolicy := ""; WriteConsistency := "";
     Include := {| Runtime := ""; DebugGC := "" |};
     PathMapping := ""; Tags := ∅ |}.

Definition httpClient : Client :=
  HTTPClient {| hAddr := "http://localhost:8086"; hTLSConfig := None;
                hUsername := ""; hPassword := "" |}.

(** A built sink over the given path mapping, registries and global
    tags. *)
Definition sinkWith (pm : pathMapping_t) (reg rt : gmap string Metric)
    (tags : gmap string string) : InfluxDB :=
  {| client := Some httpClient;
     batchConfig := {| bPrecision := "s"; bDatabase := "metrics";
                       bRetentionPolicy := ""; bWriteConsistency := "" |};
     interval := 60 * second; pingInterval := 20 * second;
     timeout := 5 * second; ctxDone := false; pathMapping := pm;
     registry := reg; runtimeRegistry := rt;
     config :=
       {| URL := "http://localhost:8086"; DB := "metrics";
          TLS := {| Enabled := false; tlsSettings := "" |};
          Interval := "1m"; Password := ""; PingInterval := "20s";
          Precision := "s"; Timeout := "5s"; Username := "";
          RetentionPolicy := ""; WriteConsistency := "";
          Include := {| Runtime := ""; DebugGC := "" |};
          PathMapping := ""; Tags := tags |} |}.

End Sample.

(** ** Properties the theorems below speak of *)

(** An accessor result that is a no-op metric: the sink it leaves behind has
    the registry it had and flushes what it flushed, also after a value is
    recorded through the metric. *)
Definition discards (w : World) (i : InfluxDB) (r : outcome (Stat * InfluxDB))
  : Prop :=
  exists i',
    r = Returns (DudStat, i')
    /\ registry i' = registry i
    /\ publishRegistry w i' = publishRegistry w i
    /\ forall s, exists i'',
         DudStat_record s i' = Returns (None, i'')
         /\ registry i'' = registry i
         /\ publishRegistry w i'' = publishRegistry w i.

(** A flush that writes one point for each entry of the two registries. *)
Definition flushesEveryEntry (w : World) (i : InfluxDB) : Prop :=
  exists effects err c batch,
    publishRegistry w i = (effects, Returns err)
    /\ Wrote c batch ∈ effects
    /\ length batch = size (registry i) + size (runtimeRegistry i).

(** The error logs of a failed flush, ping and rebuild. *)
Definition sendFailed (err : error) : Effect :=
  Log LError ("failed to send metrics data: " +:+ err).
Definition pingFailed (err : error) : Effect :=
  Log LWarn ("unable to ping influx endpoint: " +:+ err).
Definition rebuildFailed (err : error) : Effect :=
  Log LError ("unable to recreate client: " +:+ err).

(** [assign] of [makeClient]: the client is stored when it was built. *)
Definition assigned (i : InfluxDB) (c : Client) (err : option error)
  : InfluxDB * option error :=
  match err with
  | None => (set_client c i, None)
  | Some e => (i, Some e)
  end.

Definition httpsConfig (conf : InfluxDBConfig) (u : url_URL) (t : tls_Config)
  : HTTPConfig :=
  {| hAddr := URLString u; hTLSConfig := Some t;
     hUsername := Username conf; hPassword := Password conf |}.

Definition httpConfig (conf : InfluxDBConfig) (u : url_URL) : HTTPConfig :=
  {| hAddr := URLString u; hTLSConfig := None;
     hUsername := Username conf; hPassword := Password conf |}.
(** ** Further notions *)

(** Sinks that differ at most in their client. *)
Definition sameButClient (i i' : InfluxDB) : Prop :=
  batchConfig i' = batchConfig i
  /\ interval i' = interval i
  /\ pingInterval i' = pingInterval i
  /\ timeout i' = timeout i
  /\ ctxDone i' = ctxDone i
  /\ pathMapping i' = pathMapping i
  /\ registry i' = registry i
  /\ runtimeRegistry i' = runtimeRegistry i
  /\ config i' = config i.

(** Sinks that differ at most in their application registry. *)
Definition sameButRegistry (i i' : InfluxDB) : Prop :=
  client i' = client i
  /\ batchConfig i' = batchConfig i
  /\ interval i' = interval i
  /\ pingInterval i' = pingInterval i
  /\ timeout i' = timeout i
  /\ ctxDone i' = ctxDone i
  /\ pathMapping i' = pathMapping i
  /\ runtimeRegistry i' = runtimeRegistry i
  /\ config i' = config i.

(** A call of one of the six accessors, a vector accessor together with the
    [With] on the vector it returns. *)
Inductive Call : Type :=
| CallCounter (path : string)
| CallTimer (path : string)
| CallGauge (path : string)
| CallCounterVec (path : string) (n l : list string)
| CallTimerVec (path : string) (n l : list string)
| CallGaugeVec (path : string) (n l : list string).

Definition call (i : InfluxDB) (c : Call) : outcome (Stat * InfluxDB) :=
  match c with
  | CallCounter path => GetCounter i path
  | CallTimer path => GetTimer i path
  | CallGauge path => GetGauge i path
  | CallCounterVec path n l => GetCounterVec i path n l i
  | CallTimerVec path n l => GetTimerVec i path n l i
  | CallGaugeVec path n l => GetGaugeVec i path n l i
  end.

(** The number of fields [getMetricValues] fills in for each kind. *)
Definition fieldCount (m : Metric) : nat :=
  match m with
  | influxDBCounter _ | Counter _ => 1
  | influxDBGauge _ | Gauge _ | GaugeFloat64 _ => 1
  | influxDBTimer _ | Timer _ => 14
  | Histogram _ => 10
  | Meter | Healthcheck => 0
  end.

(** More sample inputs. *)
Module Edge.

(** A world in which every duration string parses, to zero. *)
Definition zeroDurations : World :=
  {| url_Parse := Sample.parseURL;
     time_ParseDuration := fun _ => Ok 0%Z;
     time_Now := 1700000000;
     newPathMapping := fun _ => Ok Sample.keepPaths;
     RegisterRuntimeMemStats := fun r => r;
     RegisterDebugGCStats := fun r => r;
     TLS_Get := fun c => Ok (TLSOf (tlsSettings c));
     NewHTTPClient := fun _ => None;
     NewUDPClient := fun _ => None;
     NewBatchPoints := Sample.batchPoints;
     NewPoint := Sample.newPoint;
     Ping := fun _ _ => None;
     Write := fun _ _ => None |}.

(** A world whose endpoint misses a ping while a new client can be built. *)
Definition flaky : World :=
  {| url_Parse := Sample.parseURL;
     time_ParseDuration := Sample.parseDuration;
     time_Now := 1700000020;
     newPathMapping := fun _ => Ok Sample.keepPaths;
     RegisterRuntimeMemStats := fun r => r;
     RegisterDebugGCStats := fun r => r;
     TLS_Get := fun c => Ok (TLSOf (tlsSettings c));
     NewHTTPClient := fun _ => None;
     NewUDPClient := fun _ => None;
     NewBatchPoints := Sample.batchPoints;
     NewPoint := Sample.newPoint;
     Ping := fun _ _ => Some "i/o timeout";
     Write := fun _ _ => None |}.

(** A sink reached over UDP, as first built. *)
Definition udpClient : Client := UDPClient {| uAddr := "localhost:8089" |}.

Definition overUDP : InfluxDB :=
  set_client udpClient (Sample.sinkWith Sample.keepPaths ∅ ∅ ∅).

(** A sink whose configured precision the client library does not know. *)
Definition badPrecision : InfluxDB :=
  set_batchConfig
    {| bPrecision := "fortnight"; bDatabase := "metrics";
       bRetentionPolicy := ""; bWriteConsistency := "" |}
    (Sample.sinkWith Sample.keepPaths (<["requests" := influxDBCounter 3]> ∅) ∅ ∅).

(** A sink with one application counter and two runtime gauges. *)
Definition mixed (pm : pathMapping_t) : InfluxDB :=
  Sample.sinkWith pm
    (<["mapped" := influxDBCounter 5]> ∅)
    (<["runtime.NumGoroutine" := Gauge 7]>
       (<["runtime.NumThread" := Gauge 9]> ∅))
    (<["zone" := "a"]> ∅).

End Edge.

(** The metric an accessor call creates when its key is free, and whether a
    metric has the dynamic type the call asserts. *)
Definition freshMetric (c : Call) : Metric :=
  match c with
  | CallCounter _ | CallCounterVec _ _ _ => influxDBCounter NewCounter
  | CallTimer _ | CallTimerVec _ _ _ => influxDBTimer NewTimer
  | CallGauge _ | CallGaugeVec _ _ _ => influxDBGauge NewGauge
  end.

Definition asserted (c : Call) (m : Metric) : bool :=
  match c, m with
  | (CallCounter _ | CallCounterVec _ _ _), influxDBCounter _ => true
  | (CallTimer _ | CallTimerVec _ _ _), influxDBTimer _ => true
  | (CallGauge _ | CallGaugeVec _ _ _), influxDBGauge _ => true
  | _, _ => false
  end.

(** The registry key a call asks for, when the path mapping gives its path a
    name: each accessor as it encodes it. *)
Definition callKey (i : InfluxDB) (c : Call) : option string :=
  match c with
  | CallCounter path | CallTimer path | CallGauge path =>
      let '(name, labels, values) := toCMName i path in
      if emptyName name then None
      else Some (Codec.encodeInfluxDBName name labels values)
  | CallCounterVec path n l =>
      let '(name, labels, values) := toCMName i path in
      if emptyName name then None
      else Some (Codec.encodeInfluxDBName path (labels ++ n) (values ++ l))
  | CallTimerVec path n l | CallGaugeVec path n l =>
      let '(name, labels, values) := toCMName i path in
      if emptyName name then None
      else Some (Codec.encodeInfluxDBName name (labels ++ n) (values ++ l))
  end.

(** * Proofs *)

Module StrFacts.

Lemma append_cons a s t : String a s +:+ t = String a (s +:+ t).
Proof. reflexivity. Qed.

Lemma append_nil_r s : s +:+ EmptyString = s.
Proof.
  induction s as [|a rest IH]; [reflexivity|].
  rewrite append_cons, IH. reflexivity.
Qed.

Lemma split_nonempty sep s : Str.split sep s <> [].
Proof.
  destruct s as [|a rest]; simpl; [discriminate|].
  destruct (Ascii.eqb a sep); [discriminate|].
  destruct (Str.split sep rest); discriminate.
Qed.

Lemma split_free sep s : Str.free_of sep s = true -> Str.split sep s = [s].
Proof.
  induction s as [|a rest IH]; simpl; [reflexivity|].
  intros H. apply andb_prop in H as [Ha Hrest].
  apply negb_true_iff in Ha. rewrite Ha, (IH Hrest). reflexivity.
Qed.

Lemma split_at_sep sep s t :
  Str.free_of sep s = true ->
  Str.split sep (s +:+ String sep t) = s :: Str.split sep t.
Proof.
  induction s as [|a rest IH]; simpl; intros H.
  - rewrite Ascii.eqb_refl. reflexivity.
  - apply andb_prop in H as [Ha Hrest].
    apply negb_true_iff in Ha. rewrite Ha, (IH Hrest). reflexivity.
Qed.

Lemma cut_at_sep sep s t :
  Str.free_of sep s = true ->
  Str.cut sep (s +:+ String sep t) = Some (s, t).
Proof.
  induction s as [|a rest IH]; simpl; intros H.
  - rewrite Ascii.eqb_refl. reflexivity.
  - apply andb_prop in H as [Ha Hrest].
    apply negb_true_iff in Ha. rewrite Ha, (IH Hrest). reflexivity.
Qed.

Lemma free_of_app sep s t :
  Str.free_of sep (s +:+ t) = Str.free_of sep s && Str.free_of sep t.
Proof.
  induction s as [|a rest IH]; [reflexivity|].
  rewrite append_cons. simpl. rewrite IH. apply andb_assoc.
Qed.

End StrFacts.

Module CodecFacts.

Lemma split_join name segs :
  Str.free_of Codec.tagSep name = true ->
  Forall (fun seg => Str.free_of Codec.tagSep seg = true) segs ->
  Str.split Codec.tagSep (name +:+ Codec.join segs) = name :: segs.
Proof.
  intros Hname Hsegs. revert name Hname.
  induction Hsegs as [|seg rest Hseg Hrest IH]; intros name Hname; simpl.
  - rewrite StrFacts.append_nil_r. apply StrFacts.split_free, Hname.
  - rewrite StrFacts.split_at_sep by exact Hname.
    f_equal. apply IH, Hseg.
Qed.

Lemma segment_free k v :
  Codec.delimiterFree k = true -> Codec.delimiterFree v = true ->
  Str.free_of Codec.tagSep (Codec.segment k v) = true.
Proof.
  unfold Codec.delimiterFree, Codec.segment. intros Hk Hv.
  apply andb_prop in Hk as [Hk _]. apply andb_prop in Hv as [Hv _].
  rewrite StrFacts.free_of_app. simpl. rewrite Hk, Hv. reflexivity.
Qed.

Lemma readTag_segment tags k v :
  Codec.delimiterFree k = true -> Codec.readTag tags (Codec.segment k v) = <[k := v]> tags.
Proof.
  unfold Codec.delimiterFree, Codec.readTag, Codec.segment. intros Hk.
  apply andb_prop in Hk as [_ Hk].
  rewrite StrFacts.cut_at_sep by exact Hk. reflexivity.
Qed.

Lemma read_segments tagKeys : forall tagValues tags,
  Forall (fun k => Codec.delimiterFree k = true) tagKeys ->
  foldl Codec.readTag tags (zip_with Codec.segment tagKeys tagValues)
  = foldl (fun tags kv => <[kv.1 := kv.2]> tags) tags (zip tagKeys tagValues).
Proof.
  induction tagKeys as [|k ks IH]; intros [|v vs] tags Hks; simpl; try reflexivity.
  inversion Hks as [|? ? Hk Hks']; subst.
  rewrite readTag_segment by exact Hk. apply IH, Hks'.
Qed.

Lemma segments_free tagKeys : forall tagValues,
  Forall (fun k => Codec.delimiterFree k = true) tagKeys ->
  Forall (fun v => Codec.delimiterFree v = true) tagValues ->
  Forall (fun seg => Str.free_of Codec.tagSep seg = true)
         (zip_with Codec.segment tagKeys tagValues).
Proof.
  induction tagKeys as [|k ks IH]; intros [|v vs] Hks Hvs; simpl;
    try (constructor; fail).
  inversion Hks; inversion Hvs; subst.
  constructor; [apply segment_free; assumption | apply IH; assumption].
Qed.

End CodecFacts.

(** C9: for a name and equally long lists of tag keys and values, all free
    of the codec's two delimiters, decoding the encoded key gives back the
    name and the map that pairs the keys with the values, a later pair
    replacing an earlier one with the same key. *)
Theorem decode_encode_roundtrip (name : string) (tagKeys tagValues : list string) :
  length tagKeys = length tagValues ->
  Codec.delimiterFree name = true ->
  Forall (fun k => Codec.delimiterFree k = true) tagKeys ->
  Forall (fun v => Codec.delimiterFree v = true) tagValues ->
  Codec.decodeInfluxDBName (Codec.encodeInfluxDBName name tagKeys tagValues)
  = (name, Codec.pairing tagKeys tagValues).
Proof.
  intros _ Hname Hks Hvs.
  unfold Codec.decodeInfluxDBName, Codec.encodeInfluxDBName, Codec.pairing.
  apply andb_prop in Hname as [Hname _].
  rewrite CodecFacts.split_join.
  - f_equal. apply CodecFacts.read_segments, Hks.
  - exact Hname.
  - apply CodecFacts.segments_free; assumption.
Qed.

Lemma decode_encode_roundtrip_witness :
  Codec.decodeInfluxDBName
    (Codec.encodeInfluxDBName "requests" ["zone"; "host"; "zone"] ["a"; "h1"; "b"])
  = ("requests", Codec.pairing ["zone"; "host"; "zone"] ["a"; "h1"; "b"]).
Proof.
  apply decode_encode_roundtrip;
    [reflexivity | reflexivity | repeat constructor | repeat constructor].
Defined.

(** ** Facts about the flush *)

Module FlushFacts.

Lemma copy_into {A : Type} (src dst : gmap string A) :
  map_fold (fun k v tags => <[k := v]> tags) dst src = src ∪ dst.
Proof.
  apply (map_fold_weak_ind (fun r m => r = m ∪ dst)).
  - symmetry. apply (left_id_L ∅ (∪)).
  - intros k v m r _ ->. apply insert_union_l.
Qed.

Lemma pointTags_union globalTags normalTags :
  pointTags globalTags normalTags = globalTags ∪ normalTags.
Proof.
  unfold pointTags. rewrite !copy_into.
  f_equal. apply (right_id_L ∅ (∪)).
Qed.

(** A global tag wins over a decoded tag of the same name; a decoded tag
    no global tag names is kept. *)
Lemma pointTags_lookup globalTags normalTags (t : string) :
  pointTags globalTags normalTags !! t
  = match globalTags !! t with
    | Some g => Some g
    | None => normalTags !! t
    end.
Proof.
  rewrite pointTags_union, lookup_union.
  destruct (globalTags !! t), (normalTags !! t); reflexivity.
Qed.

Lemma registry_values (r : gmap string Metric) :
  map_fold (fun name metric data => <[name := getMetricValues metric]> data) ∅ r
  = getMetricValues <$> r.
Proof.
  apply (map_fold_weak_ind (fun data m => data = getMetricValues <$> m)).
  - symmetry. apply fmap_empty.
  - intros k v m data _ ->. symmetry. apply fmap_insert.
Qed.

(** Without runtime metrics the flushed map is the registry, entry for
    entry. *)
Lemma getAllMetrics_registry i :
  runtimeRegistry i = ∅ ->
  getAllMetrics i = getMetricValues <$> registry i.
Proof.
  intros Hrt. unfold getAllMetrics. rewrite Hrt, map_fold_empty.
  apply registry_values.
Qed.

(** Where each entry of the flushed map comes from. *)
Lemma getAllMetrics_origin i k v :
  getAllMetrics i !! k = Some v ->
  (exists metric, registry i !! k = Some metric /\ v = getMetricValues metric)
  \/ (exists name metric, runtimeRegistry i !! name = Some metric
                          /\ k = mapPathNoTags (pathMapping i) name
                          /\ v = getMetricValues metric).
Proof.
  unfold getAllMetrics. rewrite registry_values.
  revert k v.
  apply (map_fold_weak_ind (fun data m => forall k v,
    data !! k = Some v ->
    (exists metric, registry i !! k = Some metric /\ v = getMetricValues metric)
    \/ (exists name metric, m !! name = Some metric
                            /\ k = mapPathNoTags (pathMapping i) name
                            /\ v = getMetricValues metric))).
  - intros k v Hk. left. rewrite lookup_fmap in Hk.
    destruct (registry i !! k) as [metric|]; [|discriminate].
    exists metric. split; [reflexivity|]. simpl in Hk. congruence.
  - intros name metric m data Hfresh IH k v Hk.
    destruct (decide (mapPathNoTags (pathMapping i) name = k)) as [<-|Hne].
    + rewrite lookup_insert_eq in Hk. right. exists name, metric.
      rewrite lookup_insert_eq. repeat split; congruence.
    + rewrite lookup_insert_ne in Hk by exact Hne.
      destruct (IH k v Hk) as [Hreg|(name' & metric' & Hm & Hk' & Hv)];
        [left; exact Hreg|].
      right. exists name', metric'. split; [|split; assumption].
      rewrite lookup_insert_ne; [exact Hm|]. intros ->. congruence.
Qed.

Lemma addEntry_step w i now logs points kv :
  addEntry w i now (logs, points) kv
  = (logs ++ refusalLog w i now kv,
     points ++ (if accepted w i now kv then [entryPoint i now kv] else [])).
Proof.
  destruct kv as [k v].
  unfold addEntry, refusalLog, accepted, refusal, entryPoint. simpl.
  destruct (Codec.decodeInfluxDBName k) as [name normalTags]. simpl.
  destruct (NewPoint w name _ v now); simpl; rewrite ?app_nil_r; reflexivity.
Qed.

Lemma addEntry_fold w i now entries : forall logs points,
  foldl (addEntry w i now) (logs, points) entries
  = (logs ++ concat (map (refusalLog w i now) entries),
     points ++ map (entryPoint i now) (List.filter (accepted w i now) entries)).
Proof.
  induction entries as [|kv rest IH]; intros logs points; simpl.
  - rewrite !app_nil_r. reflexivity.
  - rewrite addEntry_step, IH, <- !app_assoc.
    destruct (accepted w i now kv); reflexivity.
Qed.

(** A flush whose batch is created and whose client is in place: the log
    calls for the refused points, then one write of the accepted ones. *)
Lemma publishRegistry_written w i c :
  client i = Some c ->
  NewBatchPoints w (batchConfig i) = None ->
  let entries := map_to_list (getAllMetrics i) in
  let batch := map (entryPoint i (time_Now w))
                   (List.filter (accepted w i (time_Now w)) entries) in
  publishRegistry w i
  = (concat (map (refusalLog w i (time_Now w)) entries) ++ [Wrote c batch],
     Returns (Write w c batch)).
Proof.
  intros Hc Hbatch. unfold publishRegistry.
  rewrite Hbatch, addEntry_fold, Hc. reflexivity.
Qed.

Lemma refusalLog_writes w i now entries :
  writes (concat (map (refusalLog w i now) entries)) = 0.
Proof.
  unfold writes. induction entries as [|kv rest IH]; simpl; [reflexivity|].
  rewrite List.filter_app, length_app. unfold writes in IH. rewrite IH.
  unfold refusalLog. destruct (refusal w (entryPoint i now kv)); reflexivity.
Qed.

(** A flush never panics on a sink that has a client, and writes at most
    once. *)
Lemma publishRegistry_returns w i c :
  client i = Some c ->
  exists effects err,
    publishRegistry w i = (effects, Returns err) /\ writes effects <= 1.
Proof.
  intros Hc. destruct (NewBatchPoints w (batchConfig i)) as [e|] eqn:Hbatch.
  - unfold publishRegistry. rewrite Hbatch. eexists _, _. split; [reflexivity|].
    unfold writes. simpl. lia.
  - rewrite (publishRegistry_written w i c Hc Hbatch).
    eexists _, _. split; [reflexivity|].
    unfold writes. rewrite List.filter_app, length_app.
    fold (writes (concat (map (refusalLog w i (time_Now w))
                              (map_to_list (getAllMetrics i))))).
    rewrite refusalLog_writes. simpl. lia.
Qed.

End FlushFacts.

(** ** Facts about the client factory, the loop and shutdown *)

Module LoopFacts.

(** [makeClient] either fails and leaves the sink as it was, or succeeds
    and replaces the client alone. *)
Lemma makeClient_cases w i :
  (exists err, makeClient w i = (i, Some err))
  \/ (exists c, makeClient w i = (set_client c i, None)).
Proof.
  unfold makeClient.
  destruct (url_Parse w (URL (config i))) as [u|e]; [|left; eauto].
  destruct (String.eqb (Scheme u) "https").
  { destruct (if Enabled (TLS (config i)) then TLS_Get w (TLS (config i))
              else Ok TLSZero) as [t|e]; [|left; eauto].
    destruct (NewHTTPClient w _); [left|right]; eauto. }
  destruct (String.eqb (Scheme u) "http").
  { destruct (NewHTTPClient w _); [left|right]; eauto. }
  destruct (String.eqb (Scheme u) "udp").
  { destruct (NewUDPClient w _); [left|right]; eauto. }
  left; eauto.
Qed.

Lemma makeClient_keeps w i i' err c :
  makeClient w i = (i', err) ->
  client i = Some c ->
  (exists c', client i' = Some c') /\ ctxDone i' = ctxDone i.
Proof.
  intros Hmk Hc.
  destruct (makeClient_cases w i) as [[e He]|[c' Hc']];
    [rewrite He in Hmk | rewrite Hc' in Hmk];
    inversion Hmk; subst; simpl; eauto.
Qed.

(** A sink that came out of [NewInfluxDB] has a client and a live
    context. *)
Lemma NewInfluxDB_built w conf i :
  NewInfluxDB w conf = Ok i ->
  (exists c, client i = Some c) /\ ctxDone i = false.
Proof.
  unfold NewInfluxDB. intros H.
  repeat match type of H with
         | match ?e with _ => _ end = _ =>
             match type of e with
             | result _ => destruct e; [|discriminate]
             end
         end.
  match type of H with
  | context [makeClient w ?i0] =>
      destruct (makeClient_cases w i0) as [[e He]|[c Hc]];
      [rewrite He in H; discriminate | rewrite Hc in H]
  end.
  inversion H; subst. simpl. eauto.
Qed.

(** A turn of the loop on a tick of either ticker: no panic, and the loop
    goes on, whatever the endpoint answers. *)
Lemma loopTurn_tick w i c :
  client i = Some c ->
  exists effects,
    loopTurn i (Tick w) = (effects, Returns (i, true)).
Proof.
  intros Hc. destruct (FlushFacts.publishRegistry_returns w i c Hc)
    as (effects & err & Hpub & _).
  unfold loopTurn. rewrite Hpub. destruct err; eauto.
Qed.

Lemma loopTurn_ping w i c :
  client i = Some c ->
  exists effects i',
    loopTurn i (PingTick w) = (effects, Returns (i', true))
    /\ (exists c', client i' = Some c') /\ ctxDone i' = ctxDone i.
Proof.
  intros Hc. unfold loopTurn. rewrite Hc.
  destruct (Ping w c (timeout i)) as [e|]; [|eauto 6].
  destruct (makeClient w i) as [i' [e'|]] eqn:Hmk;
    destruct (makeClient_keeps w i i' _ c Hmk Hc) as [Hc' Hd]; eauto 6.
Qed.

Lemma Close_returns w i c :
  client i = Some c ->
  exists effects, Close w i = (effects, Returns None).
Proof.
  intros Hc. destruct (FlushFacts.publishRegistry_returns w i c Hc)
    as (effects & err & Hpub & _).
  unfold Close. rewrite Hpub, Hc. eauto.
Qed.

(** While the context is not cancelled, nothing that happens to a running
    sink ends its loop. *)
Lemma act_keeps_looping s a c :
  background s = Looping ->
  ctxDone (sink s) = false ->
  client (sink s) = Some c ->
  exists effects s',
    act s a = (effects, Returns s')
    /\ background s' = Looping
    /\ ctxDone (sink s') = false
    /\ exists c', client (sink s') = Some c'.
Proof.
  intros Hbg Hctx Hc. destruct a as [[|w|w]|w]; unfold act; rewrite ?Hbg.
  - simpl. rewrite Hctx. simpl. eauto 8.
  - destruct (loopTurn_tick w (sink s) c Hc) as [effects ->]. simpl. eauto 8.
  - destruct (loopTurn_ping w (sink s) c Hc)
      as (effects & i' & -> & Hc' & Hd). simpl.
    rewrite Hctx in Hd. eauto 8.
  - destruct (Close_returns w (sink s) c Hc) as [effects ->]. eauto 8.
Qed.

Lemma run_keeps_looping actions : forall s c,
  background s = Looping ->
  ctxDone (sink s) = false ->
  client (sink s) = Some c ->
  exists effects s',
    run s actions = (effects, Returns s')
    /\ background s' = Looping
    /\ ctxDone (sink s') = false.
Proof.
  induction actions as [|a rest IH]; intros s c Hbg Hctx Hc; simpl.
  - eauto.
  - destruct (act_keeps_looping s a c Hbg Hctx Hc)
      as (effects & s1 & -> & Hbg1 & Hctx1 & c1 & Hc1).
    destruct (IH s1 c1 Hbg1 Hctx1 Hc1) as (later & s2 & -> & Hbg2 & Hctx2).
    eauto.
Qed.

End LoopFacts.

(** ** Facts about the accessors *)

Module AccessorFacts.

Lemma emptyName_spec name : emptyName name = true <-> name = "".
Proof.
  unfold emptyName. destruct name; simpl; split; intros H;
    try reflexivity; discriminate.
Qed.

(** The key each vector accessor registers under. *)
Lemma GetCounterVec_key i path n l i' name labels values :
  toCMName i path = (name, labels, values) ->
  emptyName name = false ->
  GetCounterVec i path n l i'
  = registerCounter i'
      (Codec.encodeInfluxDBName path (labels ++ n) (values ++ l)).
Proof. intros Hcm Hname. unfold GetCounterVec. rewrite Hcm, Hname. reflexivity. Qed.

Lemma GetTimerVec_key i path n l i' name labels values :
  toCMName i path = (name, labels, values) ->
  emptyName name = false ->
  GetTimerVec i path n l i'
  = registerTimer i'
      (Codec.encodeInfluxDBName name (labels ++ n) (values ++ l)).
Proof. intros Hcm Hname. unfold GetTimerVec. rewrite Hcm, Hname. reflexivity. Qed.

Lemma GetGaugeVec_key i path n l i' name labels values :
  toCMName i path = (name, labels, values) ->
  emptyName name = false ->
  GetGaugeVec i path n l i'
  = registerGauge i'
      (Codec.encodeInfluxDBName name (labels ++ n) (values ++ l)).
Proof. intros Hcm Hname. unfold GetGaugeVec. rewrite Hcm, Hname. reflexivity. Qed.

(** Registering under a free key stores the new metric there. *)
Lemma registerCounter_fresh i key :
  registry i !! key = None ->
  registerCounter i key
  = Returns (Registered key,
             set_registry (<[key := influxDBCounter NewCounter]> (registry i)) i).
Proof. intros H. unfold registerCounter, GetOrRegister. rewrite H. reflexivity. Qed.

(** A timer asked for under a key that holds a counter: the type assertion
    fails. *)
Lemma registerTimer_clash i key count :
  registry i !! key = Some (influxDBCounter count) ->
  registerTimer i key = Panics (conversionPanic "influxDBTimer").
Proof. intros H. unfold registerTimer, GetOrRegister. rewrite H. reflexivity. Qed.

Lemma discards_dud w i : discards w i (Returns (DudStat, i)).
Proof.
  exists i. repeat split. intros s. exists i. repeat split.
Qed.

End AccessorFacts.

(** ** The claims *)

(** C1: at a path the mapping renames, [GetCounterVec] registers its counter
    under the key encoded from the raw dot-separated path, not from the
    mapped name as the claim has it; [GetTimerVec] and [GetGaugeVec], on the
    same input, do use the mapped name. *)
Theorem GetCounterVec_registers_raw_path :
  toCMName (Sample.sinkWith Sample.renamePaths ∅ ∅ ∅) "foo.bar"
  = ("mapped", ["env"], ["prod"])
  /\ (exists i',
        GetCounterVec (Sample.sinkWith Sample.renamePaths ∅ ∅ ∅) "foo.bar"
          ["topic"] ["a"] (Sample.sinkWith Sample.renamePaths ∅ ∅ ∅)
        = Returns (Registered
                     (Codec.encodeInfluxDBName "foo.bar" ["env"; "topic"]
                                               ["prod"; "a"]), i')
        /\ is_Some (registry i' !! "foo.bar,env=prod,topic=a")
        /\ registry i' !! Codec.encodeInfluxDBName "mapped" ["env"; "topic"]
                                                   ["prod"; "a"] = None)
  /\ (exists i',
        GetTimerVec (Sample.sinkWith Sample.renamePaths ∅ ∅ ∅) "foo.bar"
          ["topic"] ["a"] (Sample.sinkWith Sample.renamePaths ∅ ∅ ∅)
        = Returns (Registered
                     (Codec.encodeInfluxDBName "mapped" ["env"; "topic"]
                                               ["prod"; "a"]), i'))
  /\ (exists i',
        GetGaugeVec (Sample.sinkWith Sample.renamePaths ∅ ∅ ∅) "foo.bar"
          ["topic"] ["a"] (Sample.sinkWith Sample.renamePaths ∅ ∅ ∅)
        = Returns (Registered
                     (Codec.encodeInfluxDBName "mapped" ["env"; "topic"]
                                               ["prod"; "a"]), i')).
Proof.
  split; [reflexivity|]. split; [|split].
  - eexists. split; [vm_compute; reflexivity|].
    split; [eexists|]; vm_compute; reflexivity.
  - eexists. vm_compute. reflexivity.
  - eexists. vm_compute. reflexivity.
Qed.

(** C2: [Close] never cancels the context, so the background loop outlives
    it: on a sink built by [NewInfluxDB] whose loop has started, whatever
    sequence of [Close] calls, ticks and polls of [ctx.Done()] follows, the
    loop is still running and the context still live, where the claim has
    the loop return once [Close] is called. *)
Theorem loop_outlives_Close (w : World) (conf : InfluxDBConfig) (i : InfluxDB)
    (s : Running) (actions : list Action) :
  NewInfluxDB w conf = Ok i ->
  startLoop i = Returns s ->
  exists effects s',
    run s actions = (effects, Returns s')
    /\ background s' = Looping
    /\ ctxDone (sink s') = false.
Proof.
  intros Hnew Hstart.
  destruct (LoopFacts.NewInfluxDB_built w conf i Hnew) as [[c Hc] Hctx].
  unfold startLoop in Hstart.
  destruct ((0 <? interval i)%Z && (0 <? pingInterval i)%Z); [|discriminate].
  inversion Hstart; subst s.
  apply (LoopFacts.run_keeps_looping actions _ c); assumption || reflexivity.
Qed.

Lemma loop_outlives_Close_witness :
  exists effects s',
    run {| sink := Sample.sinkWith Sample.keepPaths ∅ ∅ ∅; background := Looping |}
        [Closes Sample.up; Wakes CtxDone; Wakes (Tick Sample.up)]
    = (effects, Returns s')
    /\ background s' = Looping
    /\ ctxDone (sink s') = false.
Proof.
  apply (loop_outlives_Close Sample.up (Sample.conf "http://localhost:8086")
           (Sample.sinkWith Sample.keepPaths ∅ ∅ ∅)).
  - vm_compute. reflexivity.
  - vm_compute. reflexivity.
Defined.

(** C3: on a sink that has its client, [Close] runs [publishRegistry] once,
    logs the error of a failed flush without returning it, closes the
    client and returns nil. *)
Theorem Close_flushes_once (w : World) (i : InfluxDB) (c : Client) :
  client i = Some c ->
  exists flushed err,
    publishRegistry w i = (flushed, Returns err)
    /\ writes flushed <= 1
    /\ Close w i
       = (flushed
            ++ match err with Some e => [sendFailed e] | None => [] end
            ++ [ClientClosed c],
          Returns None)
    /\ writes (Close w i).1 = writes flushed.
Proof.
  intros Hc.
  destruct (FlushFacts.publishRegistry_returns w i c Hc)
    as (flushed & err & Hpub & Hone).
  exists flushed, err. split; [exact Hpub|]. split; [exact Hone|].
  assert (HClose : Close w i
       = (flushed
            ++ match err with Some e => [sendFailed e] | None => [] end
            ++ [ClientClosed c], Returns None)).
  { unfold Close. rewrite Hpub, Hc. reflexivity. }
  split; [exact HClose|].
  rewrite HClose. unfold writes. simpl.
  rewrite List.filter_app, length_app. destruct err; simpl; lia.
Qed.

Lemma Close_flushes_once_witness :
  exists flushed err,
    publishRegistry Sample.down
      (Sample.sinkWith Sample.keepPaths (<["requests" := influxDBCounter 3]> ∅) ∅ ∅)
    = (flushed, Returns err)
    /\ writes flushed <= 1
    /\ Close Sample.down
         (Sample.sinkWith Sample.keepPaths (<["requests" := influxDBCounter 3]> ∅) ∅ ∅)
       = (flushed
            ++ match err with Some e => [sendFailed e] | None => [] end
            ++ [ClientClosed Sample.httpClient],
          Returns None)
    /\ writes (Close Sample.down
                 (Sample.sinkWith Sample.keepPaths
                    (<["requests" := influxDBCounter 3]> ∅) ∅ ∅)).1
       = writes flushed.
Proof.
  apply (Close_flushes_once Sample.down
           (Sample.sinkWith Sample.keepPaths (<["requests" := influxDBCounter 3]> ∅) ∅ ∅)
           Sample.httpClient).
  reflexivity.
Defined.

(** C4: where the path mapping gives a path an empty name, every accessor
    and every [With] of a vector accessor returns [DudStat] and leaves the
    sink as it was; recording through it does not panic, and neither the
    registry nor what a flush publishes changes. *)
Theorem empty_name_accessors_discard (w : World) (i : InfluxDB) (path : string)
    (n : list string) :
  (toCMName i path).1.1 = "" ->
  discards w i (GetCounter i path)
  /\ discards w i (GetTimer i path)
  /\ discards w i (GetGauge i path)
  /\ forall (l : list string) (i' : InfluxDB),
       discards w i' (GetCounterVec i path n l i')
       /\ discards w i' (GetTimerVec i path n l i')
       /\ discards w i' (GetGaugeVec i path n l i').
Proof.
  intros Hname.
  unfold GetCounter, GetTimer, GetGauge, GetCounterVec, GetTimerVec, GetGaugeVec.
  destruct (toCMName i path) as [[name labels] values]. simpl in Hname.
  apply AccessorFacts.emptyName_spec in Hname. rewrite Hname.
  repeat split; try apply AccessorFacts.discards_dud;
    unfold fakeVec; apply AccessorFacts.discards_dud.
Qed.

Lemma empty_name_accessors_discard_witness :
  discards Sample.up (Sample.sinkWith Sample.dropPaths ∅ ∅ ∅)
    (GetCounter (Sample.sinkWith Sample.dropPaths ∅ ∅ ∅) "input.received")
  /\ discards Sample.up (Sample.sinkWith Sample.dropPaths ∅ ∅ ∅)
       (GetTimer (Sample.sinkWith Sample.dropPaths ∅ ∅ ∅) "input.received")
  /\ discards Sample.up (Sample.sinkWith Sample.dropPaths ∅ ∅ ∅)
       (GetGauge (Sample.sinkWith Sample.dropPaths ∅ ∅ ∅) "input.received")
  /\ forall (l : list string) (i' : InfluxDB),
       discards Sample.up i'
         (GetCounterVec (Sample.sinkWith Sample.dropPaths ∅ ∅ ∅)
            "input.received" ["topic"] l i')
       /\ discards Sample.up i'
            (GetTimerVec (Sample.sinkWith Sample.dropPaths ∅ ∅ ∅)
               "input.received" ["topic"] l i')
       /\ discards Sample.up i'
            (GetGaugeVec (Sample.sinkWith Sample.dropPaths ∅ ∅ ∅)
               "input.received" ["topic"] l i').
Proof.
  apply (empty_name_accessors_discard Sample.up
           (Sample.sinkWith Sample.dropPaths ∅ ∅ ∅) "input.received" ["topic"]).
  reflexivity.
Defined.

(** C5, as the spec words it, fails: two runtime metrics that the path
    mapping files under one name are flushed as a single point. *)
Lemma flush_merges_same_named_entries :
  ~ flushesEveryEntry Sample.up
      (Sample.sinkWith Sample.renamePaths ∅
         (<["runtime.NumGoroutine" := Gauge 7]>
            (<["runtime.NumThread" := Gauge 9]> ∅)) ∅).
Proof.
  intros (effects & err & c & batch & Hpub & Hin & Hlen).
  vm_compute in Hlen.
  remember (publishRegistry _ _) as r eqn:Hr in Hpub.
  vm_compute in Hr. subst r.
  injection Hpub as Heff Herr. subst effects.
  apply list_elem_of_singleton in Hin.
  injection Hin as Hc Hb. subst batch.
  simpl in Hlen. discriminate.
Qed.

(** C5, amended: a flush whose batch is created, on a sink that has its
    client, writes once, and the batch holds exactly one point for each
    entry of the merged metric map that the client library accepts as a
    point.  The merged map has one entry per name, taken from the
    application registry under its keys or from the runtime registry under
    its path-mapped names; without runtime metrics it is the registry, entry
    for entry.  The tag map of each point is the tags decoded from the
    entry's key merged with the global tags, a global tag value replacing a
    decoded tag of the same name. *)
Theorem flush_points (w : World) (i : InfluxDB) (c : Client) :
  client i = Some c ->
  NewBatchPoints w (batchConfig i) = None ->
  exists logs,
    writes logs = 0
    /\ publishRegistry w i
       = (logs ++ [Wrote c (map (entryPoint i (time_Now w))
                              (List.filter (accepted w i (time_Now w))
                                           (map_to_list (getAllMetrics i))))],
          Returns (Write w c (map (entryPoint i (time_Now w))
                                (List.filter (accepted w i (time_Now w))
                                             (map_to_list (getAllMetrics i))))))
    /\ NoDup (map_to_list (getAllMetrics i)).*1
    /\ (forall k v, (k, v) ∈ map_to_list (getAllMetrics i) ->
          (exists metric, registry i !! k = Some metric
                          /\ v = getMetricValues metric)
          \/ (exists name metric, runtimeRegistry i !! name = Some metric
                                  /\ k = mapPathNoTags (pathMapping i) name
                                  /\ v = getMetricValues metric))
    /\ (runtimeRegistry i = ∅ ->
          map_to_list (getAllMetrics i)
          = prod_map id getMetricValues <$> map_to_list (registry i))
    /\ (forall k v now,
          pName (entryPoint i now (k, v)) = (Codec.decodeInfluxDBName k).1
          /\ pFields (entryPoint i now (k, v)) = v
          /\ forall t,
               pTags (entryPoint i now (k, v)) !! t
               = match Tags (config i) !! t with
                 | Some g => Some g
                 | None => (Codec.decodeInfluxDBName k).2 !! t
                 end).
Proof.
  intros Hc Hbatch. eexists. split; [|split].
  2: { apply (FlushFacts.publishRegistry_written w i c Hc Hbatch). }
  { apply FlushFacts.refusalLog_writes. }
  split; [apply NoDup_fst_map_to_list|].
  split.
  { intros k v Hin. apply elem_of_map_to_list in Hin.
    apply FlushFacts.getAllMetrics_origin, Hin. }
  split.
  { intros Hrt. rewrite (FlushFacts.getAllMetrics_registry i Hrt).
    apply map_to_list_fmap. }
  intros k v now. unfold entryPoint. simpl.
  destruct (Codec.decodeInfluxDBName k) as [name normalTags]. simpl.
  repeat split. intros t. apply FlushFacts.pointTags_lookup.
Qed.

(** The example of the spec: one counter at 5 whose key carries [zone=b],
    flushed under the global tag [zone=a]. *)
Lemma flush_points_witness :
  exists logs,
    writes logs = 0
    /\ publishRegistry Sample.up
         (Sample.sinkWith Sample.keepPaths
            (<["requests,zone=b" := influxDBCounter 5]> ∅) ∅ (<["zone" := "a"]> ∅))
       = (logs ++ [Wrote Sample.httpClient
                     [{| pName := "requests"; pTags := <["zone" := "a"]> ∅;
                         pFields := <["count" := VInt 5]> ∅;
                         pTime := 1700000000 |}]],
          Returns None).
Proof.
  destruct (flush_points Sample.up
              (Sample.sinkWith Sample.keepPaths
                 (<["requests,zone=b" := influxDBCounter 5]> ∅) ∅
                 (<["zone" := "a"]> ∅))
              Sample.httpClient eq_refl eq_refl)
    as (logs & Hlogs & Hpub & _).
  exists logs. split; [exact Hlogs|].
  rewrite Hpub. vm_compute. reflexivity.
Defined.

(** C6: the scheme of the parsed URL picks the constructor: [https] asks for
    an HTTP client with a TLS configuration, [http] for one without, [udp]
    for a UDP client at the URL's host, the client being stored when its
    constructor succeeds; any other scheme is an error of [makeClient],
    which leaves the sink untouched, and [NewInfluxDB] fails. *)
Theorem makeClient_by_scheme (w : World) (conf : InfluxDBConfig) (i : InfluxDB)
    (u : url_URL) :
  config i = conf ->
  url_Parse w (URL conf) = Ok u ->
  (Scheme u = "https" ->
     makeClient w i
     = match (if Enabled (TLS conf) then TLS_Get w (TLS conf) else Ok TLSZero) with
       | Err err => (i, Some err)
       | Ok t => assigned i (HTTPClient (httpsConfig conf u t))
                   (NewHTTPClient w (httpsConfig conf u t))
       end)
  /\ (Scheme u = "http" ->
        makeClient w i
        = assigned i (HTTPClient (httpConfig conf u))
            (NewHTTPClient w (httpConfig conf u)))
  /\ (Scheme u = "udp" ->
        makeClient w i
        = assigned i (UDPClient {| uAddr := Host u |})
            (NewUDPClient w {| uAddr := Host u |}))
  /\ (Scheme u <> "https" -> Scheme u <> "http" -> Scheme u <> "udp" ->
        makeClient w i
        = (i, Some ("protocol needs to be http, https or udp and is " +:+ Scheme u))
        /\ exists err, NewInfluxDB w conf = Err err).
Proof.
  intros Hconf Hparse. subst conf.
  split; [|split; [|split]].
  - intros Hs. unfold makeClient. rewrite Hparse, Hs. reflexivity.
  - intros Hs. unfold makeClient. rewrite Hparse, Hs. reflexivity.
  - intros Hs. unfold makeClient. rewrite Hparse, Hs. reflexivity.
  - intros H1 H2 H3. apply String.eqb_neq in H1, H2, H3. split.
    + unfold makeClient. rewrite Hparse, H1, H2, H3. reflexivity.
    + unfold NewInfluxDB.
      repeat match goal with
             | |- exists err, match ?e with _ => _ end = _ =>
                 match type of e with
                 | result _ => destruct e; [|eauto]
                 end
             end.
      unfold makeClient. simpl. rewrite Hparse, H1, H2, H3. eauto.
Qed.

Lemma makeClient_by_scheme_witness :
  makeClient Sample.up
    (Sample.sinkWith Sample.keepPaths ∅ ∅ ∅)
  = assigned (Sample.sinkWith Sample.keepPaths ∅ ∅ ∅)
      (HTTPClient (httpConfig (config (Sample.sinkWith Sample.keepPaths ∅ ∅ ∅))
                     {| Scheme := "http"; Host := "localhost:8086";
                        URLString := "http://localhost:8086" |}))
      (NewHTTPClient Sample.up
         (httpConfig (config (Sample.sinkWith Sample.keepPaths ∅ ∅ ∅))
            {| Scheme := "http"; Host := "localhost:8086";
               URLString := "http://localhost:8086" |})).
Proof.
  apply (makeClient_by_scheme Sample.up
           (config (Sample.sinkWith Sample.keepPaths ∅ ∅ ∅))
           (Sample.sinkWith Sample.keepPaths ∅ ∅ ∅)
           {| Scheme := "http"; Host := "localhost:8086";
              URLString := "http://localhost:8086" |});
    reflexivity.
Defined.

(** C7: in a flush whose batch is created, an entry the client library
    refuses as a point is logged and left out while every entry it accepts
    is in the one batch written; and a turn of the loop on either ticker,
    whatever the write, the ping or the rebuild of the client answers, logs
    the failure, does not panic and goes on. *)
Theorem publication_errors_not_fatal (w : World) (i : InfluxDB) (c : Client) :
  client i = Some c ->
  (NewBatchPoints w (batchConfig i) = None ->
   exists logs batch,
     publishRegistry w i = (logs ++ [Wrote c batch], Returns (Write w c batch))
     /\ writes logs = 0
     /\ forall k v, getAllMetrics i !! k = Some v ->
          match refusal w (entryPoint i (time_Now w) (k, v)) with
          | Some err =>
              Log LDebug ("problem formatting metrics on "
                          +:+ pName (entryPoint i (time_Now w) (k, v))
                          +:+ ": " +:+ err) ∈ logs
              /\ entryPoint i (time_Now w) (k, v) ∉ batch
          | None => entryPoint i (time_Now w) (k, v) ∈ batch
          end)
  /\ (exists effects,
        loopTurn i (Tick w) = (effects, Returns (i, true))
        /\ forall flushed err,
             publishRegistry w i = (flushed, Returns (Some err)) ->
             effects = flushed ++ [sendFailed err])
  /\ (exists effects i',
        loopTurn i (PingTick w) = (effects, Returns (i', true))
        /\ (exists c', client i' = Some c')
        /\ forall err, Ping w c (timeout i) = Some err -> pingFailed err ∈ effects).
Proof.
  intros Hc. split; [|split].
  - intros Hbatch. eexists _, _. split; [|split].
    + apply (FlushFacts.publishRegistry_written w i c Hc Hbatch).
    + apply FlushFacts.refusalLog_writes.
    + intros k v Hkv. apply elem_of_map_to_list in Hkv.
      destruct (refusal w (entryPoint i (time_Now w) (k, v))) as [err|] eqn:Href.
      * split.
        -- apply list_elem_of_In, in_concat.
           exists (refusalLog w i (time_Now w) (k, v)). split.
           ++ apply in_map, list_elem_of_In, Hkv.
           ++ unfold refusalLog. rewrite Href. left. reflexivity.
        -- intros Hin. apply list_elem_of_In, in_map_iff in Hin
             as (kv & Hpoint & Hkv').
           apply filter_In in Hkv' as [_ Hacc]. unfold accepted in Hacc.
           rewrite Hpoint, Href in Hacc. discriminate.
      * apply list_elem_of_In, in_map, filter_In. split.
        -- apply list_elem_of_In, Hkv.
        -- unfold accepted. rewrite Href. reflexivity.
  - destruct (FlushFacts.publishRegistry_returns w i c Hc)
      as (flushed & err & Hpub & _).
    unfold loopTurn. rewrite Hpub. destruct err as [err|].
    + eexists. split; [reflexivity|]. intros flushed' err' Heq.
      inversion Heq; subst. reflexivity.
    + eexists. split; [reflexivity|]. intros flushed' err' Heq. discriminate.
  - unfold loopTurn. rewrite Hc.
    destruct (Ping w c (timeout i)) as [e|].
    + destruct (makeClient w i) as [i' [e'|]] eqn:Hmk;
        destruct (LoopFacts.makeClient_keeps w i i' _ c Hmk Hc) as [Hc' _];
        eexists _, _; (split; [reflexivity|]); (split; [exact Hc'|]);
        intros err Herr; inversion Herr; subst; unfold pingFailed;
        apply list_elem_of_In; simpl; auto.
    + eexists _, _. split; [reflexivity|]. split; [eauto|]. discriminate.
Qed.

Lemma publication_errors_not_fatal_witness :
  exists effects,
    loopTurn (Sample.sinkWith Sample.keepPaths (<["requests" := influxDBCounter 3]> ∅) ∅ ∅)
      (Tick Sample.down)
    = (effects,
       Returns (Sample.sinkWith Sample.keepPaths
                  (<["requests" := influxDBCounter 3]> ∅) ∅ ∅, true))
    /\ forall flushed err,
         publishRegistry Sample.down
           (Sample.sinkWith Sample.keepPaths (<["requests" := influxDBCounter 3]> ∅) ∅ ∅)
         = (flushed, Returns (Some err)) ->
         effects = flushed ++ [sendFailed err].
Proof.
  apply (publication_errors_not_fatal Sample.down
           (Sample.sinkWith Sample.keepPaths (<["requests" := influxDBCounter 3]> ∅) ∅ ∅)
           Sample.httpClient).
  reflexivity.
Defined.

(** C8: an accessor is not total: on a sink whose path mapping keeps paths,
    [GetCounter] registers its counter under the key of the path and a
    later [GetTimer] for the same path panics on its type assertion, where
    the claim has it return a usable metric. *)
Theorem GetTimer_after_GetCounter_panics :
  exists st i',
    GetCounter (Sample.sinkWith Sample.keepPaths ∅ ∅ ∅) "foo" = Returns (st, i')
    /\ registry i' !! "foo" = Some (influxDBCounter 0)
    /\ GetTimer i' "foo" = Panics (conversionPanic "influxDBTimer")
    /\ GetGauge i' "foo" = Panics (conversionPanic "influxDBGauge").
Proof.
  eexists _, _. split; [vm_compute; reflexivity|].
  split; [|split]; vm_compute; reflexivity.
Qed.

(** C10: [makeClient] either fails and leaves the sink as it was or
    succeeds and replaces the client alone; so when a ping fails and the
    rebuild fails too, the turn of the loop logs both and keeps the sink
    with its old client, and the flush of the next tick whose batch is
    created writes through that client. *)
Theorem failed_rebuild_keeps_client (w w' : World) (i i' : InfluxDB) (c : Client)
    (pingErr buildErr : error) :
  client i = Some c ->
  Ping w c (timeout i) = Some pingErr ->
  makeClient w i = (i', Some buildErr) ->
  i' = i
  /\ loopTurn i (PingTick w)
     = ([Pinged c; pingFailed pingErr; rebuildFailed buildErr], Returns (i, true))
  /\ (NewBatchPoints w' (batchConfig i) = None ->
      exists effects s' batch,
        run {| sink := i; background := Looping |}
            [Wakes (PingTick w); Wakes (Tick w')]
        = (effects, Returns s')
        /\ sink s' = i
        /\ background s' = Looping
        /\ Wrote c batch ∈ effects).
Proof.
  intros Hc Hping Hmk.
  assert (Hi : i' = i).
  { destruct (LoopFacts.makeClient_cases w i) as [[e He]|[c' Hc']];
      [rewrite He in Hmk | rewrite Hc' in Hmk]; inversion Hmk; reflexivity. }
  subst i'.
  assert (Hturn : loopTurn i (PingTick w)
     = ([Pinged c; pingFailed pingErr; rebuildFailed buildErr], Returns (i, true))).
  { unfold loopTurn. rewrite Hc, Hping, Hmk. reflexivity. }
  split; [reflexivity|]. split; [exact Hturn|].
  intros Hbatch.
  cbn [run act background sink]. rewrite Hturn.
  cbn [run act background sink]. unfold loopTurn.
  rewrite (FlushFacts.publishRegistry_written w' i c Hc Hbatch).
  destruct (Write w' c _) as [e|];
    eexists _, _, _; (split; [reflexivity|]); (split; [reflexivity|]);
    (split; [reflexivity|]);
    rewrite !elem_of_app, !list_elem_of_singleton; tauto.
Qed.

Lemma failed_rebuild_keeps_client_witness :
  Sample.sinkWith Sample.keepPaths ∅ ∅ ∅ = Sample.sinkWith Sample.keepPaths ∅ ∅ ∅
  /\ loopTurn (Sample.sinkWith Sample.keepPaths ∅ ∅ ∅) (PingTick Sample.down)
     = ([Pinged Sample.httpClient; pingFailed "connection refused";
         rebuildFailed "no route to host"],
        Returns (Sample.sinkWith Sample.keepPaths ∅ ∅ ∅, true))
  /\ (NewBatchPoints Sample.down (batchConfig (Sample.sinkWith Sample.keepPaths ∅ ∅ ∅))
      = None ->
      exists effects s' batch,
        run {| sink := Sample.sinkWith Sample.keepPaths ∅ ∅ ∅;
               background := Looping |}
            [Wakes (PingTick Sample.down); Wakes (Tick Sample.down)]
        = (effects, Returns s')
        /\ sink s' = Sample.sinkWith Sample.keepPaths ∅ ∅ ∅
        /\ background s' = Looping
        /\ Wrote Sample.httpClient batch ∈ effects).
Proof.
  apply (failed_rebuild_keeps_client Sample.down Sample.down
           (Sample.sinkWith Sample.keepPaths ∅ ∅ ∅)
           (Sample.sinkWith Sample.keepPaths ∅ ∅ ∅)
           Sample.httpClient "connection refused" "no route to host");
    reflexivity.
Defined.

(** * Further properties of the sink *)

Module MoreFlushFacts.

(** Whatever a flush writes, it writes through the sink's client, after its
    batch was created, and the batch is the accepted entries' points. *)
Lemma publishRegistry_wrote w i c batch :
  Wrote c batch ∈ (publishRegistry w i).1 ->
  client i = Some c
  /\ NewBatchPoints w (batchConfig i) = None
  /\ batch = map (entryPoint i (time_Now w))
               (List.filter (accepted w i (time_Now w))
                            (map_to_list (getAllMetrics i))).
Proof.
  unfold publishRegistry.
  destruct (NewBatchPoints w (batchConfig i)) as [e|]; simpl.
  { intros Hin. inversion Hin. }
  rewrite FlushFacts.addEntry_fold. simpl.
  assert (Hlogs : forall entries,
            Wrote c batch ∉ concat (map (refusalLog w i (time_Now w)) entries)).
  { intros entries Hin. apply list_elem_of_In, in_concat in Hin as (l & Hl & Hin).
    apply in_map_iff in Hl as (kv & <- & _). unfold refusalLog in Hin.
    destruct (refusal w (entryPoint i (time_Now w) kv)); simpl in Hin;
      [destruct Hin as [Hin|[]]; discriminate | destruct Hin]. }
  destruct (client i) as [c0|]; simpl.
  - intros Hin. apply elem_of_app in Hin as [Hin|Hin]; [destruct (Hlogs _ Hin)|].
    apply list_elem_of_singleton in Hin. inversion Hin; subst. auto.
  - intros Hin. destruct (Hlogs _ Hin).
Qed.

Lemma getAllMetrics_size i :
  size (getAllMetrics i) <= size (registry i) + size (runtimeRegistry i).
Proof.
  unfold getAllMetrics. rewrite FlushFacts.registry_values.
  apply (map_fold_weak_ind (fun data m =>
    size data <= size (registry i) + size m)).
  - rewrite map_size_fmap, map_size_empty. lia.
  - intros name metric m data Hfresh IH.
    rewrite (map_size_insert_None name metric m Hfresh).
    rewrite map_size_insert. destruct (data !! _); simpl; lia.
Qed.

End MoreFlushFacts.

(** X1: every point of a batch carries the one timestamp taken at the start
    of the flush. *)
Theorem batch_shares_timestamp (w : World) (i : InfluxDB) (c : Client)
    (batch : list Point) (p : Point) :
  Wrote c batch ∈ (publishRegistry w i).1 ->
  p ∈ batch ->
  pTime p = time_Now w.
Proof.
  intros Hw Hp.
  destruct (MoreFlushFacts.publishRegistry_wrote w i c batch Hw) as (_ & _ & ->).
  apply list_elem_of_In, in_map_iff in Hp as ([k v] & <- & _).
  unfold entryPoint. simpl. destruct (Codec.decodeInfluxDBName k). reflexivity.
Qed.

Lemma batch_shares_timestamp_witness :
  pTime {| pName := "requests"; pTags := ∅;
           pFields := <["count" := VInt 3]> ∅; pTime := 1700000000 |}
  = time_Now Sample.up.
Proof.
  apply (batch_shares_timestamp Sample.up
           (Sample.sinkWith Sample.keepPaths (<["requests" := influxDBCounter 3]> ∅) ∅ ∅)
           Sample.httpClient
           [{| pName := "requests"; pTags := ∅;
               pFields := <["count" := VInt 3]> ∅; pTime := 1700000000 |}]).
  - vm_compute. left.
  - left.
Defined.

(** X2: every point of a batch carries every global tag with its configured
    value, whatever the metric's own key says. *)
Theorem batch_carries_global_tags (w : World) (i : InfluxDB) (c : Client)
    (batch : list Point) (p : Point) (t g : string) :
  Wrote c batch ∈ (publishRegistry w i).1 ->
  p ∈ batch ->
  Tags (config i) !! t = Some g ->
  pTags p !! t = Some g.
Proof.
  intros Hw Hp Ht.
  destruct (MoreFlushFacts.publishRegistry_wrote w i c batch Hw) as (_ & _ & ->).
  apply list_elem_of_In, in_map_iff in Hp as ([k v] & <- & _).
  unfold entryPoint. simpl. destruct (Codec.decodeInfluxDBName k). simpl.
  rewrite FlushFacts.pointTags_lookup, Ht. reflexivity.
Qed.

Lemma batch_carries_global_tags_witness :
  pTags {| pName := "requests"; pTags := <["zone" := "a"]> ∅;
           pFields := <["count" := VInt 5]> ∅; pTime := 1700000000 |}
    !! "zone" = Some "a".
Proof.
  apply (batch_carries_global_tags Sample.up
           (Sample.sinkWith Sample.keepPaths
              (<["requests,zone=b" := influxDBCounter 5]> ∅) ∅ (<["zone" := "a"]> ∅))
           Sample.httpClient
           [{| pName := "requests"; pTags := <["zone" := "a"]> ∅;
               pFields := <["count" := VInt 5]> ∅; pTime := 1700000000 |}]).
  - vm_compute. left.
  - left.
  - reflexivity.
Defined.

(** X3: a batch never holds more points than the two registries hold
    metrics. *)
Theorem batch_size_bounded (w : World) (i : InfluxDB) (c : Client)
    (batch : list Point) :
  Wrote c batch ∈ (publishRegistry w i).1 ->
  length batch <= size (registry i) + size (runtimeRegistry i).
Proof.
  intros Hw.
  destruct (MoreFlushFacts.publishRegistry_wrote w i c batch Hw) as (_ & _ & ->).
  rewrite length_map.
  pose proof (MoreFlushFacts.getAllMetrics_size i) as Hsize.
  pose proof (List.filter_length_le (accepted w i (time_Now w))
                (map_to_list (getAllMetrics i))) as Hle.
  rewrite <- (length_map_to_list (getAllMetrics i)) in Hsize.
  lia.
Qed.

Lemma batch_size_bounded_witness :
  length [{| pName := "mapped"; pTags := ∅;
             pFields := <["value" := VInt 7]> ∅; pTime := 1700000000 |}]
  <= size (registry (Sample.sinkWith Sample.renamePaths ∅
                       (<["runtime.NumGoroutine" := Gauge 7]>
                          (<["runtime.NumThread" := Gauge 9]> ∅)) ∅))
     + size (runtimeRegistry (Sample.sinkWith Sample.renamePaths ∅
                       (<["runtime.NumGoroutine" := Gauge 7]>
                          (<["runtime.NumThread" := Gauge 9]> ∅)) ∅)).
Proof.
  apply (batch_size_bounded Sample.up _ Sample.httpClient).
  vm_compute. left.
Defined.

(** X4: the metrics a flush publishes are named by the keys of the
    application registry and by the path-mapped names of the runtime
    registry, and by nothing else; a runtime metric is listed under whatever
    name the mapping gives it, the empty name included. *)
Theorem getAllMetrics_names (i : InfluxDB) :
  dom (getAllMetrics i)
  = dom (registry i)
    ∪ set_map (mapPathNoTags (pathMapping i)) (dom (runtimeRegistry i)).
Proof.
  unfold getAllMetrics. rewrite FlushFacts.registry_values.
  apply (map_fold_weak_ind (fun data (m : gmap string Metric) =>
    dom data = dom (registry i)
               ∪ set_map (mapPathNoTags (pathMapping i)) (dom m))).
  - rewrite dom_fmap_L, dom_empty_L, set_map_empty.
    symmetry. apply (right_id_L ∅ (∪)).
  - intros name metric m data _ IH.
    rewrite !dom_insert_L, IH, set_map_union_L, set_map_singleton_L.
    rewrite !(assoc_L (∪)). f_equal. apply (comm_L (∪)).
Qed.

(** X5: where a runtime metric is mapped to a name, the values published
    under that name are those of a runtime metric mapped there, also when
    the application registry holds a metric under the same name: the runtime
    registry, visited second, overrides. *)
Theorem runtime_metrics_override (i : InfluxDB) (name : string) (metric : Metric) :
  runtimeRegistry i !! name = Some metric ->
  exists name' metric',
    runtimeRegistry i !! name' = Some metric'
    /\ mapPathNoTags (pathMapping i) name' = mapPathNoTags (pathMapping i) name
    /\ getAllMetrics i !! mapPathNoTags (pathMapping i) name
       = Some (getMetricValues metric').
Proof.
  unfold getAllMetrics. revert name metric.
  apply (map_fold_weak_ind (fun data (m : gmap string Metric) =>
    forall name metric, m !! name = Some metric ->
    exists name' metric',
      m !! name' = Some metric'
      /\ mapPathNoTags (pathMapping i) name' = mapPathNoTags (pathMapping i) name
      /\ data !! mapPathNoTags (pathMapping i) name = Some (getMetricValues metric'))).
  - intros name metric Hm. rewrite lookup_empty in Hm. discriminate.
  - intros k x m data Hfresh IH name metric Hm.
    destruct (decide (mapPathNoTags (pathMapping i) k
                      = mapPathNoTags (pathMapping i) name)) as [Heq|Hne].
    + exists k, x. rewrite lookup_insert_eq, <- Heq, lookup_insert_eq. auto.
    + assert (Hk : k <> name) by congruence.
      rewrite lookup_insert_ne in Hm by exact Hk.
      destruct (IH name metric Hm) as (name' & metric' & Hm' & Hmap & Hdata).
      exists name', metric'. split; [|split].
      * rewrite lookup_insert_ne; [exact Hm'|congruence].
      * exact Hmap.
      * rewrite lookup_insert_ne by exact Hne. exact Hdata.
Qed.

Lemma runtime_metrics_override_witness :
  exists name' metric',
    runtimeRegistry (Edge.mixed Sample.renamePaths) !! name' = Some metric'
    /\ mapPathNoTags (pathMapping (Edge.mixed Sample.renamePaths)) name'
       = mapPathNoTags (pathMapping (Edge.mixed Sample.renamePaths))
           "runtime.NumThread"
    /\ getAllMetrics (Edge.mixed Sample.renamePaths)
         !! mapPathNoTags (pathMapping (Edge.mixed Sample.renamePaths))
              "runtime.NumThread"
       = Some (getMetricValues metric').
Proof.
  apply (runtime_metrics_override (Edge.mixed Sample.renamePaths)
           "runtime.NumThread" (Gauge 9)).
  reflexivity.
Defined.

(** X6: an application metric is published under its own key, with its own
    values, whenever no runtime metric is mapped to that key. *)
Theorem application_metric_published (i : InfluxDB) (key : string) (metric : Metric) :
  registry i !! key = Some metric ->
  (forall name, is_Some (runtimeRegistry i !! name) ->
                mapPathNoTags (pathMapping i) name <> key) ->
  getAllMetrics i !! key = Some (getMetricValues metric).
Proof.
  intros Hreg. unfold getAllMetrics. rewrite FlushFacts.registry_values.
  apply (map_fold_weak_ind (fun data (m : gmap string Metric) =>
    (forall name, is_Some (m !! name) ->
                  mapPathNoTags (pathMapping i) name <> key) ->
    data !! key = Some (getMetricValues metric))).
  - intros _. rewrite lookup_fmap, Hreg. reflexivity.
  - intros k x m data Hfresh IH Hfree.
    rewrite lookup_insert_ne.
    + apply IH. intros name Hname. apply Hfree.
      destruct (decide (k = name)) as [->|Hne].
      * rewrite lookup_insert_eq. eauto.
      * rewrite lookup_insert_ne by exact Hne. exact Hname.
    + apply Hfree. rewrite lookup_insert_eq. eauto.
Qed.

Lemma application_metric_published_witness :
  getAllMetrics (Edge.mixed Sample.keepPaths) !! "mapped"
  = Some (getMetricValues (influxDBCounter 5)).
Proof.
  apply (application_metric_published (Edge.mixed Sample.keepPaths)).
  - reflexivity.
  - intros name [m Hm] Heq. simpl in Heq. subst name.
    vm_compute in Hm. discriminate.
Defined.

(** X7: the fields of a metric: one for a counter or a gauge, fourteen for a
    timer, ten for a histogram, with no two of them under one name; none for
    a kind the type switch does not list.  A wrapper of the sink has the
    fields of the kind it embeds, and the [count] of a counter is its
    count. *)
Theorem getMetricValues_fields (m : Metric) :
  size (getMetricValues m) = fieldCount m
  /\ (getMetricValues m = ∅ <-> m = Meter \/ m = Healthcheck)
  /\ (forall count, getMetricValues (influxDBCounter count)
                    = getMetricValues (Counter count))
  /\ (forall value, getMetricValues (influxDBGauge value)
                    = getMetricValues (Gauge value))
  /\ (forall t, getMetricValues (influxDBTimer t) = getMetricValues (Timer t))
  /\ (forall count, getMetricValues (Counter count) !! "count" = Some (VInt count)).
Proof.
  split; [|split].
  - destruct m; vm_compute; reflexivity.
  - split.
    + intros Hempty. apply (f_equal size) in Hempty.
      destruct m; vm_compute in Hempty; try discriminate; auto.
    + intros [-> | ->]; reflexivity.
  - repeat split; intros; reflexivity.
Qed.

Module ConstructionFacts.

(** What a successful construction went through, step by step. *)
Lemma NewInfluxDB_steps w conf i :
  NewInfluxDB w conf = Ok i ->
  time_ParseDuration w (Interval conf) = Ok (interval i)
  /\ time_ParseDuration w (PingInterval conf) = Ok (pingInterval i)
  /\ time_ParseDuration w (Timeout conf) = Ok (timeout i)
  /\ newPathMapping w (PathMapping conf) = Ok (pathMapping i)
  /\ (Runtime (Include conf) <> "" ->
      exists d, time_ParseDuration w (Runtime (Include conf)) = Ok d)
  /\ (DebugGC (Include conf) <> "" ->
      exists d, time_ParseDuration w (DebugGC (Include conf)) = Ok d)
  /\ runtimeRegistry i
     = (if String.eqb (DebugGC (Include conf)) "" then id
        else RegisterDebugGCStats w)
         (if String.eqb (Runtime (Include conf)) "" then ∅
          else RegisterRuntimeMemStats w ∅)
  /\ registry i = ∅
  /\ config i = conf
  /\ ctxDone i = false
  /\ batchConfig i
     = {| bPrecision := Precision conf; bDatabase := DB conf;
          bRetentionPolicy := RetentionPolicy conf;
          bWriteConsistency := WriteConsistency conf |}
  /\ exists c, client i = Some c.
Proof.
  unfold NewInfluxDB, wrapErr. intros H.
  destruct (String.eqb (Runtime (Include conf)) "") eqn:Hrt;
    destruct (String.eqb (DebugGC (Include conf)) "") eqn:Hgc;
    try (destruct (time_ParseDuration w (Runtime (Include conf))) as [d1|] eqn:Hd1;
         [|discriminate]);
    try (destruct (time_ParseDuration w (DebugGC (Include conf))) as [d2|] eqn:Hd2;
         [|discriminate]);
    (destruct (newPathMapping w (PathMapping conf)) as [pm|] eqn:Hpm;
     [|discriminate]);
    (destruct (time_ParseDuration w (Interval conf)) as [d|] eqn:Hd;
     [|discriminate]);
    (destruct (time_ParseDuration w (PingInterval conf)) as [dp|] eqn:Hdp;
     [|discriminate]);
    (destruct (time_ParseDuration w (Timeout conf)) as [dt|] eqn:Hdt;
     [|discriminate]);
    match type of H with
    | context [makeClient w ?i0] =>
        destruct (LoopFacts.makeClient_cases w i0) as [[e He]|[c Hc]];
        [rewrite He in H; discriminate | rewrite Hc in H]
    end;
    inversion H; subst i; simpl;
    apply String.eqb_eq in Hrt || apply String.eqb_neq in Hrt;
    apply String.eqb_eq in Hgc || apply String.eqb_neq in Hgc;
    repeat split; eauto; intros; congruence.
Qed.

End ConstructionFacts.

(** X8: the sink a successful [NewInfluxDB] returns: the configuration it
    was given, durations and path mapping as parsed from it, the batch
    settings copied from it, a client in place, a live context and no
    application metric yet. *)
Theorem NewInfluxDB_builds (w : World) (conf : InfluxDBConfig) (i : InfluxDB) :
  NewInfluxDB w conf = Ok i ->
  config i = conf
  /\ time_ParseDuration w (Interval conf) = Ok (interval i)
  /\ time_ParseDuration w (PingInterval conf) = Ok (pingInterval i)
  /\ time_ParseDuration w (Timeout conf) = Ok (timeout i)
  /\ newPathMapping w (PathMapping conf) = Ok (pathMapping i)
  /\ batchConfig i
     = {| bPrecision := Precision conf; bDatabase := DB conf;
          bRetentionPolicy := RetentionPolicy conf;
          bWriteConsistency := WriteConsistency conf |}
  /\ registry i = ∅
  /\ ctxDone i = false
  /\ exists c, client i = Some c.
Proof.
  intros H. destruct (ConstructionFacts.NewInfluxDB_steps w conf i H)
    as (H1 & H2 & H3 & H4 & _ & _ & _ & H5 & H6 & H7 & H8 & H9).
  repeat split; assumption.
Qed.

Lemma NewInfluxDB_builds_witness :
  config (Sample.sinkWith Sample.keepPaths ∅ ∅ ∅)
  = Sample.conf "http://localhost:8086"
  /\ time_ParseDuration Sample.up (Interval (Sample.conf "http://localhost:8086"))
     = Ok (interval (Sample.sinkWith Sample.keepPaths ∅ ∅ ∅))
  /\ time_ParseDuration Sample.up (PingInterval (Sample.conf "http://localhost:8086"))
     = Ok (pingInterval (Sample.sinkWith Sample.keepPaths ∅ ∅ ∅))
  /\ time_ParseDuration Sample.up (Timeout (Sample.conf "http://localhost:8086"))
     = Ok (timeout (Sample.sinkWith Sample.keepPaths ∅ ∅ ∅))
  /\ newPathMapping Sample.up (PathMapping (Sample.conf "http://localhost:8086"))
     = Ok (pathMapping (Sample.sinkWith Sample.keepPaths ∅ ∅ ∅))
  /\ batchConfig (Sample.sinkWith Sample.keepPaths ∅ ∅ ∅)
     = {| bPrecision := Precision (Sample.conf "http://localhost:8086");
          bDatabase := DB (Sample.conf "http://localhost:8086");
          bRetentionPolicy := RetentionPolicy (Sample.conf "http://localhost:8086");
          bWriteConsistency := WriteConsistency (Sample.conf "http://localhost:8086") |}
  /\ registry (Sample.sinkWith Sample.keepPaths ∅ ∅ ∅) = ∅
  /\ ctxDone (Sample.sinkWith Sample.keepPaths ∅ ∅ ∅) = false
  /\ exists c, client (Sample.sinkWith Sample.keepPaths ∅ ∅ ∅) = Some c.
Proof.
  apply (NewInfluxDB_builds Sample.up (Sample.conf "http://localhost:8086")).
  vm_compute. reflexivity.
Defined.

(** X9: runtime metrics are collected only when asked for: with both
    [include] durations left empty a constructed sink has no runtime metric,
    and its flushes publish the application registry, entry for entry. *)
Theorem no_include_no_runtime_metrics (w : World) (conf : InfluxDBConfig)
    (i : InfluxDB) :
  NewInfluxDB w conf = Ok i ->
  Runtime (Include conf) = "" ->
  DebugGC (Include conf) = "" ->
  runtimeRegistry i = ∅
  /\ forall r, getAllMetrics (set_registry r i) = getMetricValues <$> r.
Proof.
  intros H Hrt Hgc.
  destruct (ConstructionFacts.NewInfluxDB_steps w conf i H)
    as (_ & _ & _ & _ & _ & _ & Hrr & _).
  rewrite Hrt, Hgc in Hrr. simpl in Hrr. split; [exact Hrr|].
  intros r. apply FlushFacts.getAllMetrics_registry. simpl. exact Hrr.
Qed.

Lemma no_include_no_runtime_metrics_witness :
  runtimeRegistry (Sample.sinkWith Sample.keepPaths ∅ ∅ ∅) = ∅
  /\ forall r, getAllMetrics (set_registry r (Sample.sinkWith Sample.keepPaths ∅ ∅ ∅))
               = getMetricValues <$> r.
Proof.
  apply (no_include_no_runtime_metrics Sample.up
           (Sample.conf "http://localhost:8086")).
  - vm_compute. reflexivity.
  - reflexivity.
  - reflexivity.
Defined.

(** X10: construction fails when the flush interval, the ping interval, the
    timeout, the path mapping or the URL cannot be parsed, and when a
    configured [include] duration cannot. *)
Theorem NewInfluxDB_rejects_unparsable (w : World) (conf : InfluxDBConfig)
    (e : error) :
  time_ParseDuration w (Interval conf) = Err e
  \/ time_ParseDuration w (PingInterval conf) = Err e
  \/ time_ParseDuration w (Timeout conf) = Err e
  \/ newPathMapping w (PathMapping conf) = Err e
  \/ url_Parse w (URL conf) = Err e
  \/ (Runtime (Include conf) <> ""
      /\ time_ParseDuration w (Runtime (Include conf)) = Err e)
  \/ (DebugGC (Include conf) <> ""
      /\ time_ParseDuration w (DebugGC (Include conf)) = Err e) ->
  exists err, NewInfluxDB w conf = Err err.
Proof.
  intros Hbad.
  destruct (NewInfluxDB w conf) as [i|err] eqn:Hnew; [|eauto].
  exfalso.
  destruct (ConstructionFacts.NewInfluxDB_steps w conf i Hnew)
    as (H1 & H2 & H3 & H4 & H5 & H6 & _ & _ & Hconf & _ & _ & [c Hc]).
  destruct Hbad as [H|[H|[H|[H|[H|[[Hne H]|[Hne H]]]]]]]; try congruence.
  - revert Hnew. unfold NewInfluxDB, wrapErr.
    repeat match goal with
           | |- context [match ?x with _ => _ end] =>
               match type of x with
               | result _ => destruct x; try discriminate
               | bool => destruct x
               end
           end;
      unfold makeClient; simpl; rewrite H; discriminate.
  - destruct (H5 Hne) as [d Hd]. congruence.
  - destruct (H6 Hne) as [d Hd]. congruence.
Qed.

Lemma NewInfluxDB_rejects_unparsable_witness :
  exists err,
    NewInfluxDB Sample.up
      {| URL := "http://localhost:8086"; DB := "metrics";
         TLS := {| Enabled := false; tlsSettings := "" |};
         Interval := "every minute"; Password := ""; PingInterval := "20s";
         Precision := "s"; Timeout := "5s"; Username := "";
         RetentionPolicy := ""; WriteConsistency := "";
         Include := {| Runtime := ""; DebugGC := "" |};
         PathMapping := ""; Tags := ∅ |}
    = Err err.
Proof.
  apply (NewInfluxDB_rejects_unparsable Sample.up _
           "time: invalid duration every minute").
  left. reflexivity.
Defined.

(** X11: construction does not check that the intervals are positive: where
    the flush interval or the ping interval parses to zero or less,
    [NewInfluxDB] still succeeds with that interval, and the loop it starts
    panics on creating its ticker. *)
Theorem nonpositive_interval_panics (w : World) (conf : InfluxDBConfig)
    (i : InfluxDB) (d : Z) :
  NewInfluxDB w conf = Ok i ->
  (time_ParseDuration w (Interval conf) = Ok d
   \/ time_ParseDuration w (PingInterval conf) = Ok d) ->
  (d <= 0)%Z ->
  startLoop i = Panics "non-positive interval for NewTicker".
Proof.
  intros H Hd Hle.
  destruct (ConstructionFacts.NewInfluxDB_steps w conf i H)
    as (H1 & H2 & _).
  unfold startLoop.
  destruct Hd as [Hd|Hd].
  - rewrite Hd in H1. inversion H1 as [Heq].
    replace (0 <? interval i)%Z with false by (symmetry; apply Z.ltb_ge; lia).
    reflexivity.
  - rewrite Hd in H2. inversion H2 as [Heq].
    replace (0 <? pingInterval i)%Z with false by (symmetry; apply Z.ltb_ge; lia).
    rewrite andb_false_r. reflexivity.
Qed.

Lemma nonpositive_interval_panics_witness :
  startLoop
    (set_batchConfig
       {| bPrecision := "s"; bDatabase := "metrics"; bRetentionPolicy := "";
          bWriteConsistency := "" |}
       (set_client Sample.httpClient
          {| client := None;
             batchConfig := {| bPrecision := ""; bDatabase := "";
                               bRetentionPolicy := ""; bWriteConsistency := "" |};
             interval := 0; pingInterval := 0; timeout := 0; ctxDone := false;
             pathMapping := Sample.keepPaths; registry := ∅;
             runtimeRegistry := ∅;
             config := Sample.conf "http://localhost:8086" |}))
  = Panics "non-positive interval for NewTicker".
Proof.
  apply (nonpositive_interval_panics Edge.zeroDurations
           (Sample.conf "http://localhost:8086") _ 0%Z).
  - vm_compute. reflexivity.
  - left. reflexivity.
  - lia.
Defined.

Module MoreLoopFacts.

Lemma sameButClient_refl i : sameButClient i i.
Proof. repeat split. Qed.

Lemma sameButClient_trans i1 i2 i3 :
  sameButClient i1 i2 -> sameButClient i2 i3 -> sameButClient i1 i3.
Proof.
  unfold sameButClient. intros H12 H23.
  destruct H12 as (?&?&?&?&?&?&?&?&?), H23 as (?&?&?&?&?&?&?&?&?).
  repeat split; congruence.
Qed.

Lemma makeClient_frame w i i' err :
  makeClient w i = (i', err) -> sameButClient i i'.
Proof.
  intros H. destruct (LoopFacts.makeClient_cases w i) as [[e He]|[c Hc]];
    [rewrite He in H | rewrite Hc in H]; inversion H; subst;
    repeat split.
Qed.

Lemma loopTurn_frame i wake effects i' goesOn :
  loopTurn i wake = (effects, Returns (i', goesOn)) -> sameButClient i i'.
Proof.
  destruct wake as [|w|w]; unfold loopTurn.
  - intros H. inversion H; subst. apply sameButClient_refl.
  - destruct (publishRegistry w i) as [eff [[e|]|why]]; intros H;
      inversion H; subst; apply sameButClient_refl.
  - destruct (client i) as [c|]; [|discriminate].
    destruct (Ping w c (timeout i)) as [pingErr|].
    + destruct (makeClient w i) as [i1 [buildErr|]] eqn:Hmk; intros H;
        inversion H; subst; apply (makeClient_frame w i _ _ Hmk).
    + intros H. inversion H; subst. apply sameButClient_refl.
Qed.

Lemma act_frame s a effects s' :
  act s a = (effects, Returns s') -> sameButClient (sink s) (sink s').
Proof.
  destruct a as [wake|w]; unfold act.
  - destruct (background s).
    + destruct (loopTurn (sink s) wake) as [eff [[i' goesOn]|why]] eqn:Hturn;
        intros H; inversion H; subst; simpl.
      apply (loopTurn_frame _ _ _ _ _ Hturn).
    + intros H. inversion H; subst. apply sameButClient_refl.
  - destruct (Close w (sink s)) as [eff [r|why]]; intros H; inversion H; subst.
    apply sameButClient_refl.
Qed.

(** The log calls of a flush are log calls. *)
Lemma refusalLogs_only_log w i now entries e :
  e ∈ concat (map (refusalLog w i now) entries) ->
  exists lvl msg, e = Log lvl msg.
Proof.
  intros He. apply list_elem_of_In, in_concat in He as (l & Hl & He).
  apply in_map_iff in Hl as (kv & <- & _). unfold refusalLog in He.
  destruct (refusal w (entryPoint i now kv)); simpl in He;
    [destruct He as [<-|[]]; eauto | destruct He].
Qed.

Ltac effect_cases Hin Hlogs :=
  repeat match type of Hin with
         | _ \/ _ => destruct Hin as [Hin|Hin]
         end;
  try (apply Hlogs in Hin as (? & ? & Hin));
  try discriminate;
  try (inversion Hin; reflexivity);
  try (unfold pingFailed, sendFailed, rebuildFailed in Hin; discriminate);
  try (destruct Hin).

(** Once the loop has returned, a wake-up is nothing. *)
Lemma returned_stays i wakes :
  run {| sink := i; background := Returned |} (map Wakes wakes)
  = ([], Returns {| sink := i; background := Returned |}).
Proof.
  induction wakes as [|wake rest IH]; simpl; [reflexivity|].
  simpl in IH. rewrite IH. reflexivity.
Qed.

End MoreLoopFacts.

(** X12: [makeClient] changes nothing of the sink but its client, whether it
    succeeds or fails. *)
Theorem makeClient_touches_client_only (w : World) (i i' : InfluxDB)
    (err : option error) :
  makeClient w i = (i', err) -> sameButClient i i'.
Proof. apply MoreLoopFacts.makeClient_frame. Qed.

Lemma makeClient_touches_client_only_witness :
  sameButClient Edge.overUDP (Sample.sinkWith Sample.keepPaths ∅ ∅ ∅).
Proof.
  apply (makeClient_touches_client_only Sample.up Edge.overUDP _ None).
  vm_compute. reflexivity.
Defined.

(** X13: nothing the loop or [Close] does changes the metrics: after any
    sequence of ticks, pings, rebuilds and [Close] calls the registries, the
    configuration and the path mapping are what they were; a flush reads
    the counters and never resets them. *)
Theorem run_keeps_metrics (s s' : Running) (actions : list Action)
    (effects : list Effect) :
  run s actions = (effects, Returns s') ->
  sameButClient (sink s) (sink s').
Proof.
  revert s effects. induction actions as [|a rest IH]; intros s effects; simpl.
  - intros H. inversion H; subst. apply MoreLoopFacts.sameButClient_refl.
  - destruct (act s a) as [eff [s1|why]] eqn:Hact; [|discriminate].
    destruct (run s1 rest) as [later ran] eqn:Hrun.
    intros H. inversion H; subst.
    apply (MoreLoopFacts.sameButClient_trans _ (sink s1)).
    + apply (MoreLoopFacts.act_frame _ _ _ _ Hact).
    + apply (IH _ _ Hrun).
Qed.

Lemma run_keeps_metrics_witness :
  sameButClient
    (sink {| sink := Edge.overUDP; background := Looping |})
    (sink {| sink := Sample.sinkWith Sample.keepPaths ∅ ∅ ∅;
             background := Looping |}).
Proof.
  apply (run_keeps_metrics _ _
           [Wakes (Tick Sample.up); Wakes (PingTick Edge.flaky);
            Closes Sample.up]
           [Wrote Edge.udpClient []; Pinged Edge.udpClient;
            pingFailed "i/o timeout"; Wrote Sample.httpClient [];
            ClientClosed Sample.httpClient]).
  vm_compute. reflexivity.
Defined.

(** X14: when a ping fails and the rebuild succeeds, the loop goes on with
    the new client: the flush of the next tick whose batch is created writes
    through the new client and through no other, and the client replaced is
    never closed. *)
Theorem rebuilt_client_serves_next_flush (w w' : World) (i i' : InfluxDB)
    (c : Client) (pingErr : error) :
  client i = Some c ->
  Ping w c (timeout i) = Some pingErr ->
  makeClient w i = (i', None) ->
  NewBatchPoints w' (batchConfig i) = None ->
  exists effects s' c' batch,
    run {| sink := i; background := Looping |}
        [Wakes (PingTick w); Wakes (Tick w')]
    = (effects, Returns s')
    /\ sink s' = i'
    /\ background s' = Looping
    /\ client i' = Some c'
    /\ Wrote c' batch ∈ effects
    /\ (forall c0 b, Wrote c0 b ∈ effects -> c0 = c')
    /\ (forall c0, ClientClosed c0 ∉ effects).
Proof.
  intros Hc Hping Hmk Hbatch.
  assert (Hframe := MoreLoopFacts.makeClient_frame w i i' None Hmk).
  destruct Hframe as (Hb & _).
  destruct (LoopFacts.makeClient_keeps w i i' None c Hmk Hc) as [[c' Hc'] _].
  assert (Hturn : loopTurn i (PingTick w)
                  = ([Pinged c; pingFailed pingErr], Returns (i', true))).
  { unfold loopTurn. rewrite Hc, Hping, Hmk. reflexivity. }
  rewrite <- Hb in Hbatch.
  cbn [run act background sink]. rewrite Hturn.
  cbn [run act background sink]. unfold loopTurn.
  rewrite (FlushFacts.publishRegistry_written w' i' c' Hc' Hbatch).
  pose proof (MoreLoopFacts.refusalLogs_only_log w' i' (time_Now w')
                (map_to_list (getAllMetrics i'))) as Hlogs.
  destruct (Write w' c' _) as [e|];
    eexists _, _, c', _; (split; [reflexivity|]);
    (split; [reflexivity|]); (split; [reflexivity|]);
    (split; [exact Hc'|]); (split; [|split]).
  all: try (rewrite !elem_of_app, !list_elem_of_singleton; tauto).
  all: first [intros c0 b Hin | intros c0 Hin];
       rewrite ?elem_of_app, ?elem_of_cons, ?elem_of_nil in Hin;
       MoreLoopFacts.effect_cases Hin Hlogs.
Qed.

Lemma rebuilt_client_serves_next_flush_witness :
  exists effects s' c' batch,
    run {| sink := Edge.overUDP; background := Looping |}
        [Wakes (PingTick Edge.flaky); Wakes (Tick Sample.up)]
    = (effects, Returns s')
    /\ sink s' = Sample.sinkWith Sample.keepPaths ∅ ∅ ∅
    /\ background s' = Looping
    /\ client (Sample.sinkWith Sample.keepPaths ∅ ∅ ∅) = Some c'
    /\ Wrote c' batch ∈ effects
    /\ (forall c0 b, Wrote c0 b ∈ effects -> c0 = c')
    /\ (forall c0, ClientClosed c0 ∉ effects).
Proof.
  apply (rebuilt_client_serves_next_flush Edge.flaky Sample.up Edge.overUDP
           (Sample.sinkWith Sample.keepPaths ∅ ∅ ∅) Edge.udpClient "i/o timeout");
    reflexivity.
Defined.

(** X15: once the context is cancelled, the first time the loop finds
    [ctx.Done()] ready it returns, and no tick after that flushes or pings
    any more. *)
Theorem cancelled_loop_returns (i : InfluxDB) (wakes : list Wake) :
  run {| sink := cancel i; background := Looping |}
      (Wakes CtxDone :: map Wakes wakes)
  = ([], Returns {| sink := cancel i; background := Returned |}).
Proof.
  cbn [run act background sink loopTurn ctxDone cancel negb].
  rewrite MoreLoopFacts.returned_stays. reflexivity.
Qed.

(** X16: when the batch of the final flush cannot be created, [Close]
    writes nothing, logs that error, and still closes the client and
    returns nil. *)
Theorem Close_without_batch (w : World) (i : InfluxDB) (c : Client) (e : error) :
  client i = Some c ->
  NewBatchPoints w (batchConfig i) = Some e ->
  Close w i
  = ([sendFailed ("problem creating batch points for influx: " +:+ e);
      ClientClosed c],
     Returns None).
Proof.
  intros Hc Hbatch. unfold Close, publishRegistry. rewrite Hbatch, Hc. reflexivity.
Qed.

Lemma Close_without_batch_witness :
  Close Sample.up Edge.badPrecision
  = ([sendFailed ("problem creating batch points for influx: "
                  +:+ "time: unknown unit in duration 1fortnight");
      ClientClosed Sample.httpClient],
     Returns None).
Proof.
  apply (Close_without_batch Sample.up Edge.badPrecision Sample.httpClient);
    reflexivity.
Defined.

(** X17: a flush of a sink without any metric still writes: one batch, with
    no point in it, and no log. *)
Theorem empty_flush_writes_empty_batch (w : World) (i : InfluxDB) (c : Client) :
  client i = Some c ->
  NewBatchPoints w (batchConfig i) = None ->
  registry i = ∅ ->
  runtimeRegistry i = ∅ ->
  publishRegistry w i = ([Wrote c []], Returns (Write w c [])).
Proof.
  intros Hc Hbatch Hreg Hrt.
  rewrite (FlushFacts.publishRegistry_written w i c Hc Hbatch).
  rewrite (FlushFacts.getAllMetrics_registry i Hrt), Hreg, fmap_empty,
    map_to_list_empty.
  reflexivity.
Qed.

Lemma empty_flush_writes_empty_batch_witness :
  publishRegistry Sample.up (Sample.sinkWith Sample.keepPaths ∅ ∅ ∅)
  = ([Wrote Sample.httpClient []], Returns (Write Sample.up Sample.httpClient [])).
Proof.
  apply (empty_flush_writes_empty_batch Sample.up
           (Sample.sinkWith Sample.keepPaths ∅ ∅ ∅) Sample.httpClient);
    reflexivity.
Defined.

Module MoreAccessorFacts.

Lemma set_registry_same i : set_registry (registry i) i = i.
Proof. destruct i. reflexivity. Qed.

(** Every accessor call, in one equation: the no-op for a path without a
    name; otherwise get-or-register under the call's key, with a panic when
    the metric found has another type than the one asserted. *)
Lemma call_spec i c :
  call i c
  = match callKey i c with
    | None => Returns (DudStat, i)
    | Some key =>
        match registry i !! key with
        | None =>
            Returns (Registered key,
                     set_registry (<[key := freshMetric c]> (registry i)) i)
        | Some m =>
            if asserted c m then Returns (Registered key, i)
            else Panics (conversionPanic
                           (match c with
                            | CallCounter _ | CallCounterVec _ _ _ => "influxDBCounter"
                            | CallTimer _ | CallTimerVec _ _ _ => "influxDBTimer"
                            | CallGauge _ | CallGaugeVec _ _ _ => "influxDBGauge"
                            end))
        end
    end.
Proof.
  destruct c; unfold call, callKey, GetCounter, GetTimer, GetGauge,
    GetCounterVec, GetTimerVec, GetGaugeVec;
    destruct (toCMName i path) as [[name labels] values];
    destruct (emptyName name); try reflexivity;
    unfold registerCounter, registerTimer, registerGauge, GetOrRegister;
    match goal with
    | |- context [registry i !! ?k] => destruct (registry i !! k) as [m|]
    end; try reflexivity;
    destruct m; simpl; rewrite ?set_registry_same; reflexivity.
Qed.

Lemma callKey_registry i c r : callKey (set_registry r i) c = callKey i c.
Proof. destruct c; reflexivity. Qed.

End MoreAccessorFacts.

(** X18: an accessor call that returns gives either the no-op and the sink
    untouched, or the metric the registry now holds under the call's key:
    the one that was there, of the call's type, or a fresh zero one where
    the key was free. *)
Theorem accessor_result (i i' : InfluxDB) (c : Call) (st : Stat) :
  call i c = Returns (st, i') ->
  (st = DudStat /\ callKey i c = None /\ i' = i)
  \/ exists key m,
       st = Registered key
       /\ callKey i c = Some key
       /\ registry i' !! key = Some m
       /\ asserted c m = true
       /\ (registry i !! key = None -> m = freshMetric c)
       /\ (forall m0, registry i !! key = Some m0 -> m = m0 /\ i' = i).
Proof.
  rewrite MoreAccessorFacts.call_spec.
  destruct (callKey i c) as [key|]; [|intros H; inversion H; auto].
  destruct (registry i !! key) as [m|] eqn:Hk.
  - destruct (asserted c m) eqn:Ha; [|discriminate].
    intros H. inversion H; subst. right. exists key, m.
    repeat split; try assumption; try congruence.
  - intros H. inversion H; subst. right. exists key, (freshMetric c).
    simpl. rewrite lookup_insert_eq.
    split; [reflexivity|]. split; [reflexivity|]. split; [reflexivity|].
    split; [destruct c; reflexivity|].
    split; [reflexivity|].
    intros m0 Hm0. congruence.
Qed.

Lemma accessor_result_witness :
  (Registered "requests" = DudStat
   /\ callKey (Sample.sinkWith Sample.keepPaths ∅ ∅ ∅) (CallCounter "requests") = None
   /\ Sample.sinkWith Sample.keepPaths (<["requests" := influxDBCounter 0]> ∅) ∅ ∅
      = Sample.sinkWith Sample.keepPaths ∅ ∅ ∅)
  \/ exists key m,
       Registered "requests" = Registered key
       /\ callKey (Sample.sinkWith Sample.keepPaths ∅ ∅ ∅) (CallCounter "requests")
          = Some key
       /\ registry (Sample.sinkWith Sample.keepPaths
                      (<["requests" := influxDBCounter 0]> ∅) ∅ ∅) !! key = Some m
       /\ asserted (CallCounter "requests") m = true
       /\ (registry (Sample.sinkWith Sample.keepPaths ∅ ∅ ∅) !! key = None ->
           m = freshMetric (CallCounter "requests"))
       /\ (forall m0, registry (Sample.sinkWith Sample.keepPaths ∅ ∅ ∅) !! key
                      = Some m0 ->
                      m = m0
                      /\ Sample.sinkWith Sample.keepPaths
                           (<["requests" := influxDBCounter 0]> ∅) ∅ ∅
                         = Sample.sinkWith Sample.keepPaths ∅ ∅ ∅).
Proof.
  apply (accessor_result (Sample.sinkWith Sample.keepPaths ∅ ∅ ∅)).
  vm_compute. reflexivity.
Defined.

(** X19: an accessor call that returns keeps every metric the registry held,
    under its key and with its value, adds at most one, and touches nothing
    of the sink besides the registry. *)
Theorem accessor_keeps_registry (i i' : InfluxDB) (c : Call) (st : Stat) :
  call i c = Returns (st, i') ->
  sameButRegistry i i'
  /\ (forall key m, registry i !! key = Some m -> registry i' !! key = Some m)
  /\ size (registry i') <= S (size (registry i)).
Proof.
  rewrite MoreAccessorFacts.call_spec.
  destruct (callKey i c) as [key|].
  - destruct (registry i !! key) as [m|] eqn:Hk.
    + destruct (asserted c m); [|discriminate].
      intros H. inversion H; subst. repeat split; auto.
    + intros H. inversion H; subst. simpl. repeat split.
      * intros key' m' Hm'. rewrite lookup_insert_ne; [exact Hm'|congruence].
      * rewrite (map_size_insert_None key _ _ Hk). lia.
  - intros H. inversion H; subst. repeat split; auto.
Qed.

Lemma accessor_keeps_registry_witness :
  sameButRegistry
    (Sample.sinkWith Sample.keepPaths (<["requests" := influxDBCounter 3]> ∅) ∅ ∅)
    (Sample.sinkWith Sample.keepPaths
       (<["latency" := influxDBTimer NewTimer]>
          (<["requests" := influxDBCounter 3]> ∅)) ∅ ∅)
  /\ (forall key m,
        registry (Sample.sinkWith Sample.keepPaths
                    (<["requests" := influxDBCounter 3]> ∅) ∅ ∅) !! key = Some m ->
        registry (Sample.sinkWith Sample.keepPaths
                    (<["latency" := influxDBTimer NewTimer]>
                       (<["requests" := influxDBCounter 3]> ∅)) ∅ ∅) !! key = Some m)
  /\ size (registry (Sample.sinkWith Sample.keepPaths
                       (<["latency" := influxDBTimer NewTimer]>
                          (<["requests" := influxDBCounter 3]> ∅)) ∅ ∅))
     <= S (size (registry (Sample.sinkWith Sample.keepPaths
                             (<["requests" := influxDBCounter 3]> ∅) ∅ ∅))).
Proof.
  apply (accessor_keeps_registry _ _ (CallTimer "latency") (Registered "latency")).
  vm_compute. reflexivity.
Defined.

(** X20: asking again is free: an accessor call that returned returns the
    same metric when repeated and leaves the sink as the first call left
    it. *)
Theorem accessor_idempotent (i i' : InfluxDB) (c : Call) (st : Stat) :
  call i c = Returns (st, i') ->
  call i' c = Returns (st, i').
Proof.
  rewrite !MoreAccessorFacts.call_spec.
  destruct (callKey i c) as [key|] eqn:Hkey.
  - destruct (registry i !! key) as [m|] eqn:Hk.
    + destruct (asserted c m) eqn:Ha; [|discriminate].
      intros H. inversion H; subst. rewrite Hkey, Hk, Ha. reflexivity.
    + intros H. inversion H; subst.
      rewrite MoreAccessorFacts.callKey_registry, Hkey. simpl.
      rewrite lookup_insert_eq.
      replace (asserted c (freshMetric c)) with true by (destruct c; reflexivity).
      reflexivity.
  - intros H. inversion H; subst. rewrite Hkey. reflexivity.
Qed.

Lemma accessor_idempotent_witness :
  call (Sample.sinkWith Sample.renamePaths
          (<["mapped,env=prod,topic=a" := influxDBGauge 0]> ∅) ∅ ∅)
       (CallGaugeVec "foo.bar" ["topic"] ["a"])
  = Returns (Registered "mapped,env=prod,topic=a",
             Sample.sinkWith Sample.renamePaths
               (<["mapped,env=prod,topic=a" := influxDBGauge 0]> ∅) ∅ ∅).
Proof.
  apply (accessor_idempotent (Sample.sinkWith Sample.renamePaths ∅ ∅ ∅)).
  vm_compute. reflexivity.
Defined.

(** X21: an accessor call panics exactly when its path has a name and the
    registry holds, under the call's key, a metric of another type than the
    call asserts; on every other sink it returns. *)
Theorem accessor_panics_iff (i : InfluxDB) (c : Call) :
  (exists why, call i c = Panics why)
  <-> exists key m,
        callKey i c = Some key
        /\ registry i !! key = Some m
        /\ asserted c m = false.
Proof.
  rewrite MoreAccessorFacts.call_spec. split.
  - intros [why H].
    destruct (callKey i c) as [key|]; [|discriminate].
    destruct (registry i !! key) as [m|] eqn:Hk; [|discriminate].
    destruct (asserted c m) eqn:Ha; [discriminate|].
    exists key, m. auto.
  - intros (key & m & -> & -> & ->). eauto.
Qed.


(** X23: a metric an accessor handed out is in the next flush: on a sink
    without runtime metrics, once a call has returned the metric under a
    key, a flush whose batch is created writes one batch, and that batch
    holds the point of the metric unless the client library refuses the
    point. *)
Theorem registered_metric_is_flushed (w : World) (i i' : InfluxDB) (c : Call)
    (key : string) (cl : Client) :
  call i c = Returns (Registered key, i') ->
  runtimeRegistry i = ∅ ->
  client i = Some cl ->
  NewBatchPoints w (batchConfig i) = None ->
  exists m logs batch,
    registry i' !! key = Some m
    /\ asserted c m = true
    /\ publishRegistry w i' = (logs ++ [Wrote cl batch], Returns (Write w cl batch))
    /\ (refusal w (entryPoint i' (time_Now w) (key, getMetricValues m)) = None ->
        entryPoint i' (time_Now w) (key, getMetricValues m) ∈ batch).
Proof.
  intros Hcall Hrt Hc Hbatch.
  rewrite MoreAccessorFacts.call_spec in Hcall.
  assert (Hm : exists m, registry i' !! key = Some m /\ asserted c m = true
                         /\ client i' = client i
                         /\ batchConfig i' = batchConfig i
                         /\ runtimeRegistry i' = runtimeRegistry i).
  { destruct (callKey i c) as [key'|]; [|discriminate].
    destruct (registry i !! key') as [m|] eqn:Hk.
    - destruct (asserted c m) eqn:Ha; [|discriminate].
      inversion Hcall; subst. eauto 6.
    - inversion Hcall; subst. exists (freshMetric c). simpl.
      rewrite lookup_insert_eq. repeat split. destruct c; reflexivity. }
  destruct Hm as (m & Hm & Ha & Hc' & Hb' & Hrt').
  rewrite <- Hc' in Hc. rewrite <- Hb' in Hbatch. rewrite <- Hrt' in Hrt.
  exists m. eexists _, _. split; [exact Hm|]. split; [exact Ha|].
  split; [apply (FlushFacts.publishRegistry_written w i' cl Hc Hbatch)|].
  intros Hok. apply list_elem_of_In, in_map, filter_In. split.
  - apply list_elem_of_In, elem_of_map_to_list.
    rewrite (FlushFacts.getAllMetrics_registry i' Hrt), lookup_fmap, Hm.
    reflexivity.
  - unfold accepted. rewrite Hok. reflexivity.
Qed.

Lemma registered_metric_is_flushed_witness :
  exists m logs batch,
    registry (Sample.sinkWith Sample.keepPaths
                (<["requests" := influxDBCounter 0]> ∅) ∅ ∅) !! "requests" = Some m
    /\ asserted (CallCounter "requests") m = true
    /\ publishRegistry Sample.up
         (Sample.sinkWith Sample.keepPaths (<["requests" := influxDBCounter 0]> ∅) ∅ ∅)
       = (logs ++ [Wrote Sample.httpClient batch],
          Returns (Write Sample.up Sample.httpClient batch))
    /\ (refusal Sample.up
          (entryPoint (Sample.sinkWith Sample.keepPaths
                         (<["requests" := influxDBCounter 0]> ∅) ∅ ∅)
             (time_Now Sample.up) ("requests", getMetricValues m)) = None ->
        entryPoint (Sample.sinkWith Sample.keepPaths
                      (<["requests" := influxDBCounter 0]> ∅) ∅ ∅)
          (time_Now Sample.up) ("requests", getMetricValues m) ∈ batch).
Proof.
  apply (registered_metric_is_flushed Sample.up
           (Sample.sinkWith Sample.keepPaths ∅ ∅ ∅) _ (CallCounter "requests")).
  - vm_compute. reflexivity.
  - reflexivity.
  - reflexivity.
  - reflexivity.
Defined.
